(** * Flash-card extraction from a mirrored 2x4 grid: model and properties

    A shallow embedding of [extract_flashcards.py].  The class
    [FlashCardExtractor] holds an opened document [pdf_doc]; its methods
    are embedded as functions of that document.

    - Python integers are [Z]; [len(...)] is a [nat].
    - Page coordinates are Python floats.  The grid arithmetic only halves,
      quarters and multiplies by 0..4, so lengths are taken here as exact
      rationals [Q] and compared with [==]; rounding is not modelled.
    - Paths are lists of components; the file system, standard output and
      the calls into the rendering engine form an explicit [World]. *)

From Stdlib Require Import ZArith QArith Qminmax Lqa Lia String Ascii List.
From Stdlib Require Import DecimalString DecimalN DecimalPos.
From stdpp Require Import base strings list gmap.

Set Warnings "-clear-no-such-hyp".

Local Open Scope Z_scope.

(** ** Pages and rectangles (the part of the rendering library the code uses) *)

Module Fitz.

(** [fitz.Rect(x0, y0, x1, y1)] *)
Record Rect : Type := mkRect { x0 : Q; y0 : Q; x1 : Q; y1 : Q }.

(** [Rect.width] and [Rect.height]: never negative *)
Definition rect_width (r : Rect) : Q := Qmax 0 (x1 r - x0 r).
Definition rect_height (r : Rect) : Q := Qmax 0 (y1 r - y0 r).

(** A source page; [page.rect] is the page bound, whose top-left corner
    the library puts at the origin. *)
Record Page : Type := mkPage { page_width : Q; page_height : Q }.

Definition page_rect (page : Page) : Rect :=
  mkRect 0 0 (page_width page) (page_height page).

(** closed rectangle and its interior, as sets of points *)
Definition inside (r : Rect) (x y : Q) : Prop :=
  (x0 r <= x /\ x <= x1 r /\ y0 r <= y /\ y <= y1 r)%Q.

Definition interior (r : Rect) (x y : Q) : Prop :=
  (x0 r < x /\ x < x1 r /\ y0 r < y /\ y < y1 r)%Q.

(** component-wise equality of rectangles up to [==] *)
Definition rect_eq (r s : Rect) : Prop :=
  (x0 r == x0 s /\ y0 r == y0 s /\ x1 r == x1 s /\ y1 r == y1 s)%Q.

End Fitz.
Import Fitz.

(** ** Grid addressing *)

(** [_get_rect(page, col, row)]:
    [w, h = page.rect.width / 2, page.rect.height / 4]
    [Rect(col * w, row * h, (col + 1) * w, (row + 1) * h)] *)
Definition _get_rect (page : Page) (col row : Z) : Rect :=
  let w := (rect_width (page_rect page) / 2)%Q in
  let h := (rect_height (page_rect page) / 4)%Q in
  mkRect (inject_Z col * w) (inject_Z row * h)
         (inject_Z (col + 1) * w) (inject_Z (row + 1) * h).

(** A yielded tuple [(card_num, q_page, a_page, col, row)]. *)
Definition Card : Type := Z * Z * Z * Z * Z.

Definition card_number (c : Card) : Z := let '(n, _, _, _, _) := c in n.
Definition question_page (c : Card) : Z := let '(_, q, _, _, _) := c in q.
Definition answer_page (c : Card) : Z := let '(_, _, a, _, _) := c in a.
Definition column (c : Card) : Z := let '(_, _, _, col, _) := c in col.
Definition row_of (c : Card) : Z := let '(_, _, _, _, row) := c in row.

(** [range(n)] *)
Definition range (n : nat) : list Z := map Z.of_nat (seq 0 n).

(** The generator [_cards], run to exhaustion.  The loop state is the
    counter [card_num] together with the tuples yielded so far; the
    innermost body yields and then increments the counter. *)
Definition yield_card (pair row : Z) (st : Z * list Card) (col : Z)
  : Z * list Card :=
  let '(card_num, yielded) := st in
  (card_num + 1, yielded ++ [(card_num, pair * 2, pair * 2 + 1, col, row)]).

Definition row_loop (pair : Z) (st : Z * list Card) (row : Z) : Z * list Card :=
  foldl (yield_card pair row) st (range 2).

Definition pair_loop (st : Z * list Card) (pair : Z) : Z * list Card :=
  foldl (row_loop pair) st (range 4).

Definition _cards (pdf_doc : list Page) : list Card :=
  snd (foldl pair_loop (1, []) (range (length pdf_doc / 2))).

(** *** The order the specification describes

    Pair index ascending, then row 0..3, then column 0..1; pair [k] uses
    question page [2k] and answer page [2k+1]; numbers run from 1. *)
Definition Slot : Type := Z * Z * Z * Z.   (* q_page, a_page, col, row *)

Definition grid_order (pairs : list Z) : list Slot :=
  k ← pairs; row ← range 4; col ← range 2; [(2 * k, 2 * k + 1, col, row)].

Fixpoint numbered (n : Z) (slots : list Slot) : list Card :=
  match slots with
  | [] => []
  | (q, a, col, row) :: rest => (n, q, a, col, row) :: numbered (n + 1) rest
  end.

Definition slot_of (c : Card) : Slot :=
  (question_page c, answer_page c, column c, row_of c).

Definition valid_cell (col row : Z) : Prop := 0 <= col <= 1 /\ 0 <= row <= 3.

(** ** Number formatting and file names *)

(** [k] zeros put in front of a digit sequence *)
Fixpoint zfill (k : nat) (d : Decimal.uint) : Decimal.uint :=
  match k with
  | O => d
  | S k' => Decimal.D0 (zfill k' d)
  end.

(** [f"{num:03d}"]: decimal digits, zero-padded to a minimum width of 3;
    a minus sign counts towards the width and comes before the zeros. *)
Definition format_03d (num : Z) : string :=
  match num with
  | Zneg p =>
      let d := Pos.to_uint p in
      String "-" (NilZero.string_of_uint (zfill (2 - Decimal.nb_digits d) d))
  | _ =>
      let d := N.to_uint (Z.to_N num) in
      NilZero.string_of_uint (zfill (3 - Decimal.nb_digits d) d)
  end.

(** Paths are lists of components: [p / name] appends one, [p.parent]
    drops the last. *)
Abbreviation path := (list string).

Definition path_join (p : path) (name : string) : path := p ++ [name].
Definition path_parent (p : path) : path := removelast p.

(** [str(path)] *)
Definition path_str (p : path) : string := String.concat "/" p.

(** every directory [mkdir(parents=True)] makes sure exists *)
Definition ancestors (p : path) : list path :=
  map (λ n, take n p) (seq 1 (length p)).

Definition front_name (num : Z) : string := format_03d num +:+ "-Front.pdf".
Definition back_name (num : Z) : string := format_03d num +:+ "-Back.pdf".
Definition merged_name (num : Z) : string := format_03d num +:+ "-Merged.pdf".
Definition q_file (num : Z) : string := "card_" +:+ format_03d num +:+ "_q.png".
Definition a_file (num : Z) : string := "card_" +:+ format_03d num +:+ "_a.png".
Definition card_line (num : Z) : string := "  Card " +:+ format_03d num.
Definition exported_line (out : path) : string := "✓ Exported to " +:+ path_str out.

(** the double-quote character, for the HTML snippets *)
Definition dq : string := String "034" "".

Definition img_tag (file : string) : string := "<img src=" +:+ dq +:+ file +:+ dq +:+ ">".

(** ** Produced content *)

(** A page of a new document: its size and what [show_pdf_page] put on
    it, as (target rectangle, source page number, clip). *)
Record OutPage : Type := mkOutPage {
  out_width : Q;
  out_height : Q;
  out_shown : list (Rect * Z * Rect);
}.

(** [doc.new_page(width=, height=)] and [page.show_pdf_page(rect, src, pno, clip=)] *)
Definition new_page (width height : Q) : OutPage := mkOutPage width height [].

Definition out_rect (pg : OutPage) : Rect := mkRect 0 0 (out_width pg) (out_height pg).

Definition show_pdf_page (pg : OutPage) (target : Rect) (pno : Z) (clip : Rect) : OutPage :=
  mkOutPage (out_width pg) (out_height pg) (out_shown pg ++ [(target, pno, clip)]).

(** [page.get_pixmap(matrix=Matrix(z, z), clip=)] *)
Record Pixmap : Type := mkPixmap { pix_page : Z; pix_zoom : Q; pix_clip : Rect }.

(** genanki's [Model], [Note] and [Deck] *)
Record Model : Type := mkModel {
  model_id : Z;
  model_name : string;
  model_fields : list string;
  model_templates : list (string * string * string);   (* name, qfmt, afmt *)
  model_css : string;
}.

Record Note : Type := mkNote { note_model : Model; note_fields : list string }.

Record Deck : Type := mkDeck { deck_id : Z; deck_name : string; deck_notes : list Note }.

(** What a file holds.  Serialised bytes are identified with the value
    they encode. *)
#[warnings="-register-all"]
Inductive Content : Type :=
| PdfBytes (pages : list OutPage)
| PngBytes (pix : Pixmap)
| ApkgBytes (deck : Deck) (media : list (path * Content)).

(** ** The world outside the program *)

(** Calls that leave the program and may raise. *)
Inductive Op : Type :=
| Mkdir (p : path)                        (* Path.mkdir(parents=True, exist_ok=True) *)
| WriteBytes (p : path)                   (* Path.write_bytes *)
| ExtractPdf (page_num col row : Z)       (* the engine calls of _extract_pdf *)
| ExtractImage (page_num col row dpi : Z) (* the engine calls of _extract_image *)
| OpenStream                              (* fitz.open(stream=..., filetype="pdf") *)
| InsertPdf                               (* Document.insert_pdf *)
| Save (p : path)                         (* Document.save *)
| Mkdtemp                                 (* tempfile.mkdtemp *)
| WriteToFile (p : path)                  (* genanki Package.write_to_file *)
| Rmtree (p : path).                      (* shutil.rmtree(..., ignore_errors=True) *)

Inductive Exn : Type :=
| IndexError (i : Z)
| FileNotFoundError (p : path)
| ValueError
| External (code : nat).

Record World : Type := mkWorld {
  fs_dirs : gset path;
  fs_files : gmap path Content;
  stdout : list string;
  trace : list Op;          (* the calls made so far, oldest first *)
  draws : nat;              (* how many random numbers were drawn *)
}.

(** What the program does not control: which call raises (by its position
    in the trace), the directory [mkdtemp] creates, the random draws. *)
Record Env : Type := mkEnv {
  fails : nat -> Op -> option Exn;
  scratch : path;
  draw : nat -> Z;
}.

Definition set_dirs (f : gset path -> gset path) (w : World) : World :=
  mkWorld (f (fs_dirs w)) (fs_files w) (stdout w) (trace w) (draws w).
Definition set_files (f : gmap path Content -> gmap path Content) (w : World) : World :=
  mkWorld (fs_dirs w) (f (fs_files w)) (stdout w) (trace w) (draws w).
Definition log (op : Op) (w : World) : World :=
  mkWorld (fs_dirs w) (fs_files w) (stdout w) (trace w ++ [op]) (draws w).

(** ** Computations that change the world and may raise *)

Inductive Outcome (A : Type) : Type :=
| Returned (a : A)
| Raised (e : Exn).
Arguments Returned {A} a.
Arguments Raised {A} e.

Definition Run (A : Type) : Type := World -> Outcome A * World.

#[export] Instance Run_ret : MRet Run := λ A a w, (Returned a, w).

#[export] Instance Run_bind : MBind Run := λ A B k m w,
  match m w with
  | (Returned a, w') => k a w'
  | (Raised e, w') => (Raised e, w')
  end.

Definition raise {A : Type} (e : Exn) : Run A := λ w, (Raised e, w).

(** [try: body finally: cleanup] *)
Definition try_finally {A : Type} (body : Run A) (cleanup : Run unit) : Run A := λ w,
  let '(r, w1) := body w in
  match cleanup w1 with
  | (Returned _, w2) => (r, w2)
  | (Raised e, w2) => (Raised e, w2)
  end.

(** [for x in xs: body(x)] *)
Fixpoint for_each {A : Type} (xs : list A) (body : A -> Run unit) : Run unit :=
  match xs with
  | [] => mret tt
  | x :: rest => body x ;; for_each rest body
  end.

(** a loop whose body updates local variables [S] *)
Fixpoint for_each_acc {A S : Type} (xs : list A) (body : S -> A -> Run S) (s : S) : Run S :=
  match xs with
  | [] => mret s
  | x :: rest => s' ← body s x; for_each_acc rest body s'
  end.

(** ** Primitive calls *)

Section Program.

Context (env : Env).

(** An outside call: it is recorded; it then raises if the environment
    says so, and otherwise has its effect. *)
Definition call (op : Op) (effect : World -> World) : Run unit := λ w,
  match fails env (length (trace w)) op with
  | Some e => (Raised e, log op w)
  | None => (Returned tt, effect (log op w))
  end.

(** [p.mkdir(parents=True, exist_ok=True)] *)
Definition mkdir (p : path) : Run unit :=
  call (Mkdir p) (set_dirs (λ ds, ds ∪ list_to_set (ancestors p))).

(** [p.write_bytes(data)] *)
Definition write_bytes (p : path) (data : Content) : Run unit :=
  call (WriteBytes p) (set_files (insert p data)).

(** [print(line)] *)
Definition print (line : string) : Run unit := λ w,
  (Returned tt,
   mkWorld (fs_dirs w) (fs_files w) (stdout w ++ [line]) (trace w) (draws w)).

(** [random.randrange(lo, hi)] *)
Definition randrange (lo hi : Z) : Run Z := λ w,
  (Returned (lo + draw env (draws w) mod (hi - lo)),
   mkWorld (fs_dirs w) (fs_files w) (stdout w) (trace w) (S (draws w))).

(** [tempfile.mkdtemp()] *)
Definition mkdtemp : Run path :=
  call Mkdtemp (set_dirs (λ ds, ds ∪ {[scratch env]}));; mret (scratch env).

(** [shutil.rmtree(p, ignore_errors=True)]: the call never raises.  The
    removal itself is taken to succeed: the directory and everything
    below it is gone afterwards. *)
Definition rmtree (p : path) : Run unit := λ w,
  (Returned tt,
   set_files (filter (λ kv, ¬ p `prefix_of` kv.1))
     (set_dirs (filter (λ d, ¬ p `prefix_of` d)) (log (Rmtree p) w))).

(** [pdf_doc[page_num]]: an index outside the document raises.  (Negative
    indices are not given a meaning here; the page numbers the program
    passes are [2k] and [2k+1].) *)
Definition getitem (pdf_doc : list Page) (page_num : Z) : Run Page :=
  if (0 <=? page_num) && (page_num <? Z.of_nat (length pdf_doc)) then
    match pdf_doc !! Z.to_nat page_num with
    | Some page => mret page
    | None => raise (IndexError page_num)
    end
  else raise (IndexError page_num).

(** [fitz.open(stream=data, filetype="pdf")] *)
Definition open_stream (data : Content) : Run (list OutPage) :=
  call OpenStream id;;
  match data with
  | PdfBytes pages => mret pages
  | _ => raise ValueError
  end.

(** [doc.insert_pdf(src)]: the pages of [src] are appended *)
Definition insert_pdf (doc src : list OutPage) : Run (list OutPage) :=
  call InsertPdf id;; mret (doc ++ src).

(** [doc.save(p)] *)
Definition save (doc : list OutPage) (p : path) : Run unit :=
  call (Save p) (set_files (insert p (PdfBytes doc))).

(** [Package(deck).write_to_file(p)] with [media_files = media]: the
    media files are read back from disk and packed with the deck. *)
Definition read_media (media : list path) (w : World) : option (list (path * Content)) :=
  mapM (λ p, (λ data, (p, data)) <$> fs_files w !! p) media.

Definition write_to_file (deck : Deck) (media : list path) (p : path) : Run unit := λ w,
  match fails env (length (trace w)) (WriteToFile p) with
  | Some e => (Raised e, log (WriteToFile p) w)
  | None =>
      match read_media media w with
      | Some packed =>
          (Returned tt, set_files (insert p (ApkgBytes deck packed)) (log (WriteToFile p) w))
      | None =>
          (Raised (FileNotFoundError (default p (head (filter (λ m, fs_files w !! m = None) media)))),
           log (WriteToFile p) w)
      end
  end.

(** ** The extractor *)

Variable pdf_doc : list Page.

(** [_extract_pdf(page_num, col, row)] *)
Definition cell_page (page_num : Z) (rect : Rect) : OutPage :=
  let new := new_page (rect_width rect) (rect_height rect) in
  show_pdf_page new (out_rect new) page_num rect.

Definition _extract_pdf (page_num col row : Z) : Run Content :=
  page ← getitem pdf_doc page_num;
  let rect := _get_rect page col row in
  call (ExtractPdf page_num col row) id;;
  mret (PdfBytes [cell_page page_num rect]).

(** [_extract_image(page_num, col, row, dpi=300)] *)
Definition _extract_image (page_num col row dpi : Z) : Run Content :=
  page ← getitem pdf_doc page_num;
  let rect := _get_rect page col row in
  call (ExtractImage page_num col row dpi) id;;
  mret (PngBytes (mkPixmap page_num (inject_Z dpi / 72) rect)).

(** [export_pdf_separate(output_dir)] *)
Definition separate_body (out : path) (card : Card) : Run unit :=
  let '(num, q_page, a_page, col, row) := card in
  front ← _extract_pdf q_page col row;
  write_bytes (path_join out (front_name num)) front;;
  back ← _extract_pdf a_page (1 - col) row;
  write_bytes (path_join out (back_name num)) back;;
  print (card_line num).

Definition export_pdf_separate (out : path) : Run unit :=
  mkdir out;;
  for_each (_cards pdf_doc) (separate_body out);;
  print (exported_line out).

(** [export_pdf_merged(output_dir)] *)
Definition merged_body (out : path) (card : Card) : Run unit :=
  let '(num, q_page, a_page, col, row) := card in
  let merged := [] in
  data ← _extract_pdf q_page col row;
  front ← open_stream data;
  merged ← insert_pdf merged front;
  data ← _extract_pdf a_page (1 - col) row;
  back ← open_stream data;
  merged ← insert_pdf merged back;
  save merged (path_join out (merged_name num));;
  print (card_line num).

Definition export_pdf_merged (out : path) : Run unit :=
  mkdir out;;
  for_each (_cards pdf_doc) (merged_body out);;
  print (exported_line out).

(** [export_anki(output_file, deck_name)] *)
Definition image_model (id : Z) : Model :=
  mkModel id "Image Flashcard" ["Q"; "A"]
    [("Card",
      "<div style=" +:+ dq +:+ "text-align:center" +:+ dq +:+ ">{{Q}}</div>",
      "{{FrontSide}}<hr id=" +:+ dq +:+ "answer" +:+ dq +:+ "><div style=" +:+ dq
        +:+ "text-align:center" +:+ dq +:+ ">{{A}}</div>")]
    ".card{text-align:center;background:#fff}img{max-width:100%;height:auto}".

(** the loop's local variables: the [media] list and the notes of [deck] *)
Definition anki_body (temp_dir : path) (model : Model)
    (st : list path * list Note) (card : Card) : Run (list path * list Note) :=
  let '(media, notes) := st in
  let '(num, q_page, a_page, col, row) := card in
  let q_path := path_join temp_dir (q_file num) in
  q_png ← _extract_image q_page col row 300;
  write_bytes q_path q_png;;
  let media := media ++ [q_path] in
  let a_path := path_join temp_dir (a_file num) in
  a_png ← _extract_image a_page (1 - col) row 300;
  write_bytes a_path a_png;;
  let media := media ++ [a_path] in
  let notes := notes ++ [mkNote model [img_tag (q_file num); img_tag (a_file num)]] in
  print (card_line num);;
  mret (media, notes).

(** the block under [try:] *)
Definition anki_try (out : path) (deck_name : string) (did : Z) (model : Model)
    (temp_dir : path) : Run unit :=
  '(media, notes) ← for_each_acc (_cards pdf_doc) (anki_body temp_dir model) ([], []);
  write_to_file (mkDeck did deck_name notes) media out.

Definition export_anki (out : path) (deck_name : string) : Run unit :=
  mkdir (path_parent out);;
  did ← randrange (2 ^ 30) (2 ^ 31);
  mid ← randrange (2 ^ 30) (2 ^ 31);
  let model := image_model mid in
  temp_dir ← mkdtemp;
  try_finally (anki_try out deck_name did model temp_dir) (rmtree temp_dir);;
  print (exported_line out).

End Program.

(** ** Describing a run *)

(** The calls one card causes in each strategy, in order. *)
Definition separate_ops (out : path) (card : Card) : list Op :=
  let '(num, q_page, a_page, col, row) := card in
  [ExtractPdf q_page col row; WriteBytes (path_join out (front_name num));
   ExtractPdf a_page (1 - col) row; WriteBytes (path_join out (back_name num))].

Definition merged_ops (out : path) (card : Card) : list Op :=
  let '(num, q_page, a_page, col, row) := card in
  [ExtractPdf q_page col row; OpenStream; InsertPdf;
   ExtractPdf a_page (1 - col) row; OpenStream; InsertPdf;
   Save (path_join out (merged_name num))].

Definition anki_ops (temp_dir : path) (card : Card) : list Op :=
  let '(num, q_page, a_page, col, row) := card in
  [ExtractImage q_page col row 300; WriteBytes (path_join temp_dir (q_file num));
   ExtractImage a_page (1 - col) row 300; WriteBytes (path_join temp_dir (a_file num))].

(** The first call of [plan] that raises, when the plan starts at trace
    position [base]: its index in the plan and the exception. *)
Fixpoint first_fault (env : Env) (base : nat) (plan : list Op) : option (nat * Exn) :=
  match plan with
  | [] => None
  | op :: rest =>
      match fails env base op with
      | Some e => Some (0%nat, e)
      | None => prod_map S id <$> first_fault env (S base) rest
      end
  end.

(** The cells a list of calls asks the engine for: (page, column, row). *)
Definition renders (ops : list Op) : list (Z * Z * Z) :=
  omap (λ op, match op with
              | ExtractPdf p c r => Some (p, c, r)
              | ExtractImage p c r _ => Some (p, c, r)
              | _ => None
              end) ops.

(** The cells the mirroring rule asks for: for each card the question cell
    [(q_page, c, r)], then the answer cell [(a_page, 1 - c, r)]. *)
Definition mirrored_requests (cards : list Card) : list (Z * Z * Z) :=
  card ← cards;
  [(question_page card, column card, row_of card);
   (answer_page card, 1 - column card, row_of card)].

(** both pages of a card exist in the document *)
Definition pages_ok (pdf_doc : list Page) (card : Card) : Prop :=
  0 <= question_page card < Z.of_nat (length pdf_doc) ∧
  0 <= answer_page card < Z.of_nat (length pdf_doc).

(** the one-page document holding cell [(col, row)] of page [page_num] *)
Definition page_of (pdf_doc : list Page) (page_num : Z) : Page :=
  default (mkPage 0 0) (pdf_doc !! Z.to_nat page_num).

Definition cell (pdf_doc : list Page) (page_num col row : Z) : OutPage :=
  cell_page page_num (_get_rect (page_of pdf_doc page_num) col row).

(** The files one card leaves behind in the two document strategies. *)
Definition separate_writes (pdf_doc : list Page) (out : path) (card : Card)
  : list (path * Content) :=
  let '(num, q_page, a_page, col, row) := card in
  [(path_join out (front_name num), PdfBytes [cell pdf_doc q_page col row]);
   (path_join out (back_name num), PdfBytes [cell pdf_doc a_page (1 - col) row])].

Definition merged_writes (pdf_doc : list Page) (out : path) (card : Card)
  : list (path * Content) :=
  let '(num, q_page, a_page, col, row) := card in
  [(path_join out (merged_name num),
    PdfBytes [cell pdf_doc q_page col row; cell pdf_doc a_page (1 - col) row])].

(** writing files one after the other *)
Definition write_all (kvs : list (path * Content)) (fs : gmap path Content)
  : gmap path Content :=
  foldl (λ m kv, <[kv.1 := kv.2]> m) fs kvs.

(** the names of the regular files directly inside directory [dir] *)
Definition listing (dir : path) (fs : gmap path Content) : gset path :=
  filter (λ p, p ≠ [] ∧ path_parent p = dir) (dom fs).

(** The shape the separate-files and the merged strategy share: make the
    directory, run a body for every card, print the last line; and the
    calls such a run makes when the body makes the calls [ops]. *)
Definition document_run (env : Env) (pdf_doc : list Page) (out : path)
    (body : Card → Run unit) : Run unit :=
  mkdir env out;; for_each (_cards pdf_doc) body;; print (exported_line out).

Definition document_plan (out : path) (ops : Card → list Op) (cards : list Card)
  : list Op :=
  Mkdir out :: (cards ≫= ops).

Definition separate_plan (out : path) (cards : list Card) : list Op :=
  document_plan out (separate_ops out) cards.

Definition merged_plan (out : path) (cards : list Card) : list Op :=
  document_plan out (merged_ops out) cards.

(** the paths of the files of one card *)
Definition front_path (out : path) (card : Card) : path :=
  path_join out (front_name (card_number card)).
Definition back_path (out : path) (card : Card) : path :=
  path_join out (back_name (card_number card)).
Definition merged_path (out : path) (card : Card) : path :=
  path_join out (merged_name (card_number card)).

(** the pages a card is expected to give: its question cell, and the
    cell of the mirrored column on the answer page *)
Definition front_page (pdf_doc : list Page) (card : Card) : OutPage :=
  cell pdf_doc (question_page card) (column card) (row_of card).
Definition back_page (pdf_doc : list Page) (card : Card) : OutPage :=
  cell pdf_doc (answer_page card) (1 - column card) (row_of card).

(** the progress lines of a list of cards *)
Definition card_lines (cards : list Card) : list string :=
  card_line ∘ card_number <$> cards.

(** a produced page has half the width and a quarter of the height of
    the source page *)
Definition quarter_sized (src : Page) (pg : OutPage) : Prop :=
  (out_width pg == rect_width (page_rect src) / 2)%Q ∧
  (out_height pg == rect_height (page_rect src) / 4)%Q.

(** A run reads mirrored cells: the cells it asks the engine for are an
    initial part of the mirrored requests of the enumeration, and all of
    them when the run returns. *)
Definition reads_mirrored (pdf_doc : list Page) (run : Run unit) (w : World) : Prop :=
  ∃ r w' calls,
    run w = (r, w') ∧ trace w' = trace w ++ calls ∧
    renders calls `prefix_of` mirrored_requests (_cards pdf_doc) ∧
    (r = Returned tt → renders calls = mirrored_requests (_cards pdf_doc)).

(** the world when the [try] block of the package strategy is entered *)
Definition anki_entered (env : Env) (out : path) (w : World) : World :=
  mkWorld (fs_dirs w ∪ list_to_set (ancestors (path_parent out)) ∪ {[scratch env]})
    (fs_files w) (stdout w)
    (trace w ++ [Mkdir (path_parent out); Mkdtemp]) (S (S (draws w))).

(** nothing is at or below [dir] *)
Definition absent (dir : path) (w : World) : Prop :=
  ∀ p, dir `prefix_of` p → (p ∉ fs_dirs w) ∧ (fs_files w !! p = None).

(** ** Concrete inputs used in the examples *)

(** an environment in which no call fails *)
Definition quiet_env : Env := mkEnv (λ _ _, None) ["tmp"; "tmpk3x9"] (λ _, 0).

(** an environment in which the call at trace position [n] raises *)
Definition failing_at (n : nat) : Env :=
  mkEnv (λ i _, if Nat.eqb i n then Some (External 1) else None)
        ["tmp"; "tmpk3x9"] (λ _, 0).

Definition a4 : Page := mkPage 595 842.
Definition two_pages : list Page := [a4; a4].
Definition four_pages : list Page := [a4; a4; a4; a4].
Definition empty_world : World := mkWorld ∅ ∅ [] [] 0.

(** every string of a list is smaller, in dictionary order, than all
    strings after it *)
Fixpoint ascending (names : list string) : bool :=
  match names with
  | [] => true
  | name :: rest => forallb (String.ltb name) rest && ascending rest
  end.

(** the number prefixes of the first 1000 card numbers, from 0 *)
Definition three_digit_names : list string :=
  (λ i, format_03d (Z.of_nat i)) <$> seq 0 1000.

(** [p] names an entry directly inside directory [dir] *)
Definition directly_in (dir p : path) : Prop := ∃ name, p = path_join dir name.

(** From [w] to [w'] no directory was made or removed and only files
    directly inside [dir] were written. *)
Definition wrote_only_in (dir : path) (w w' : World) : Prop :=
  fs_dirs w' = fs_dirs w ∧
  ∀ p, ¬ directly_in dir p → fs_files w' !! p = fs_files w !! p.

(** the image of cell [(col, row)] of page [page_num], at 300 dpi *)
Definition png_of (pdf_doc : list Page) (page_num col row : Z) : Content :=
  PngBytes (mkPixmap page_num (inject_Z 300 / 72)
              (_get_rect (page_of pdf_doc page_num) col row)).

(** the image files one card stages in the scratch directory, and its note *)
Definition anki_writes (pdf_doc : list Page) (temp_dir : path) (card : Card)
  : list (path * Content) :=
  let '(num, q_page, a_page, col, row) := card in
  [(path_join temp_dir (q_file num), png_of pdf_doc q_page col row);
   (path_join temp_dir (a_file num), png_of pdf_doc a_page (1 - col) row)].

Definition anki_note (model : Model) (card : Card) : Note :=
  mkNote model [img_tag (q_file (card_number card)); img_tag (a_file (card_number card))].

(** ** Opening the source document *)

(** [Path.exists()]: the path names a directory or a file *)
Definition path_exists (w : World) (p : path) : bool :=
  bool_decide (p ∈ fs_dirs w) || bool_decide (is_Some (fs_files w !! p)).

(** [str(len(pdf_doc))] *)
Definition str_len (n : nat) : string :=
  NilZero.string_of_uint (N.to_uint (N.of_nat n)).

Definition odd_warning (n : nat) : string :=
  "Warning: PDF has " +:+ str_len n +:+ " pages. Last page ignored.".

(** [FlashCardExtractor.__init__].  [fitz_open] stands for what
    [fitz.open] makes of the file; the second component of the result is
    what is printed on standard error. *)
Definition __init__ (fitz_open : path -> Outcome (list Page)) (pdf_path : path)
    (w : World) : Outcome (list Page) * list string :=
  if path_exists w pdf_path then
    match fitz_open pdf_path with
    | Returned pdf_doc =>
        (Returned pdf_doc,
         if (length pdf_doc mod 2 =? 0)%nat then []
         else [odd_warning (length pdf_doc)])
    | Raised e => (Raised e, [])
    end
  else (Raised (FileNotFoundError pdf_path), []).

(** a world in which the source document exists *)
Definition world_with_source : World :=
  mkWorld ∅ {[ ["cards.pdf"] := PdfBytes [] ]} [] [] 0.

(** ** Enumeration: closed form *)

Section Enumeration.

Lemma numbered_app n l1 l2 :
  numbered n (l1 ++ l2) = numbered n l1 ++ numbered (n + Z.of_nat (length l1)) l2.
Proof.
  revert n; induction l1 as [|[[[q a] c] r] l1 IH]; intros n; simpl.
  - by rewrite Z.add_0_r.
  - rewrite IH. do 3 f_equal. lia.
Qed.

Lemma numbered_length n l : length (numbered n l) = length l.
Proof.
  revert n; induction l as [|[[[q a] c] r] l IH]; intros n; simpl; [done|].
  by rewrite IH.
Qed.

Lemma numbered_numbers n l :
  map card_number (numbered n l) = map (λ i, n + Z.of_nat i) (seq 0 (length l)).
Proof.
  revert n; induction l as [|[[[q a] c] r] l IH]; intros n; simpl; [done|].
  rewrite IH, Z.add_0_r. f_equal.
  rewrite <- seq_shift, map_map. apply map_ext; intros i. lia.
Qed.

Lemma numbered_slots n l : map slot_of (numbered n l) = l.
Proof.
  revert n; induction l as [|[[[q a] c] r] l IH]; intros n; simpl; [done|].
  by rewrite IH.
Qed.

Lemma pair_loop_unfold n yielded k :
  pair_loop (n, yielded) k = (n + 8, yielded ++ numbered n (grid_order [k])).
Proof.
  unfold pair_loop, row_loop, grid_order; simpl.
  rewrite <- !app_assoc; simpl.
  replace (k * 2) with (2 * k) by lia.
  f_equal; lia.
Qed.

Lemma grid_order_cons k ks : grid_order (k :: ks) = grid_order [k] ++ grid_order ks.
Proof. reflexivity. Qed.

Lemma grid_order_length ks : length (grid_order ks) = (length ks * 8)%nat.
Proof.
  induction ks as [|k ks IH]; [done|].
  rewrite grid_order_cons, length_app, IH. simpl. lia.
Qed.

Lemma pairs_loop_unfold ks n yielded :
  foldl pair_loop (n, yielded) ks =
  (n + 8 * Z.of_nat (length ks), yielded ++ numbered n (grid_order ks)).
Proof.
  revert n yielded; induction ks as [|k ks IH]; intros n yielded.
  - simpl. by rewrite Z.add_0_r, app_nil_r.
  - rewrite (grid_order_cons k ks), numbered_app, grid_order_length.
    change (foldl pair_loop (n, yielded) (k :: ks))
      with (foldl pair_loop (pair_loop (n, yielded) k) ks).
    rewrite pair_loop_unfold, IH, <- app_assoc.
    change (Z.of_nat (length [k] * 8)) with 8.
    f_equal. rewrite length_cons. lia.
Qed.

Lemma _cards_closed_form pdf_doc :
  _cards pdf_doc = numbered 1 (grid_order (range (length pdf_doc / 2))).
Proof. unfold _cards. by rewrite pairs_loop_unfold. Qed.

End Enumeration.

Section EnumerationFacts.

Lemma elem_of_range (i : Z) (n : nat) : i ∈ range n ↔ 0 <= i < Z.of_nat n.
Proof.
  unfold range. rewrite list_elem_of_fmap. split.
  - intros (k & -> & Hk). apply elem_of_seq in Hk. lia.
  - intros Hi. exists (Z.to_nat i). split; [lia|]. apply elem_of_seq. lia.
Qed.

Lemma elem_of_grid_order (s : Slot) (ks : list Z) :
  s ∈ grid_order ks ↔
  ∃ k col row, k ∈ ks ∧ valid_cell col row ∧ s = (2 * k, 2 * k + 1, col, row).
Proof.
  unfold grid_order, valid_cell. split.
  - intros H.
    apply list_elem_of_bind in H as (k & H & Hk).
    apply list_elem_of_bind in H as (row & H & Hrow).
    apply list_elem_of_bind in H as (col & H & Hcol).
    apply list_elem_of_singleton in H.
    apply elem_of_range in Hrow, Hcol.
    exists k, col, row. repeat split; try done; lia.
  - intros (k & col & row & Hk & [Hc Hr] & ->).
    apply list_elem_of_bind. exists k. split; [|done].
    apply list_elem_of_bind. exists row. split; [|apply elem_of_range; lia].
    apply list_elem_of_bind. exists col. split; [|apply elem_of_range; lia].
    by apply list_elem_of_singleton.
Qed.

Lemma elem_of_numbered (c : Card) n l : c ∈ numbered n l → slot_of c ∈ l.
Proof.
  intros H. rewrite <- (numbered_slots n l).
  apply list_elem_of_fmap. by exists c.
Qed.

(** every yielded tuple names an existing pair of adjacent pages and a
    cell of the grid *)
Lemma _cards_elem (pdf_doc : list Page) (c : Card) :
  c ∈ _cards pdf_doc →
  ∃ k, 0 <= k < Z.of_nat (length pdf_doc / 2) ∧
       question_page c = 2 * k ∧ answer_page c = 2 * k + 1 ∧
       valid_cell (column c) (row_of c).
Proof.
  rewrite _cards_closed_form. intros H%elem_of_numbered.
  apply elem_of_grid_order in H as (k & col & row & Hk & Hv & E).
  apply elem_of_range in Hk. exists k.
  destruct c as [[[[n q] a] c] r]. unfold slot_of in E; simpl in *.
  by simplify_eq.
Qed.

Lemma _cards_length (pdf_doc : list Page) :
  length (_cards pdf_doc) = (length pdf_doc / 2 * 8)%nat.
Proof.
  rewrite _cards_closed_form, numbered_length, grid_order_length.
  unfold range. by rewrite length_map, length_seq.
Qed.

End EnumerationFacts.

(** ** Geometry *)

Section Geometry.

Lemma Qdiv2 (a : Q) : (a / 2 == a * (1 # 2))%Q.
Proof. reflexivity. Qed.

Lemma Qdiv4 (a : Q) : (a / 4 == a * (1 # 4))%Q.
Proof. reflexivity. Qed.

Lemma rect_width_page (page : Page) :
  (0 < page_width page)%Q → (rect_width (page_rect page) == page_width page)%Q.
Proof. intros H. unfold rect_width, page_rect; simpl. rewrite Q.max_r; lra. Qed.

Lemma rect_height_page (page : Page) :
  (0 < page_height page)%Q → (rect_height (page_rect page) == page_height page)%Q.
Proof. intros H. unfold rect_height, page_rect; simpl. rewrite Q.max_r; lra. Qed.

Lemma rect_width_nonneg (r : Rect) : (0 <= rect_width r)%Q.
Proof. apply Q.le_max_l. Qed.

Lemma rect_height_nonneg (r : Rect) : (0 <= rect_height r)%Q.
Proof. apply Q.le_max_l. Qed.

End Geometry.

(** literal grid coordinates as rational constants *)
Ltac eval_inject :=
  repeat match goal with
  | |- context [inject_Z ?z] =>
      let q := eval vm_compute in (inject_Z z) in change (inject_Z z) with q
  end.

(** the eight cells, one by one *)
Ltac each_cell H c r :=
  let Hc := fresh in let Hr := fresh in
  destruct H as [Hc Hr];
  assert (c = 0 ∨ c = 1) as [-> | ->] by lia;
  assert (r = 0 ∨ r = 1 ∨ r = 2 ∨ r = 3) as [-> | [-> | [-> | ->]]] by lia;
  clear Hc Hr.

(** unfold a cell of a page with positive size down to linear arithmetic *)
Ltac cell_arith page HW HH :=
  unfold inside, interior, _get_rect, page_rect in *; cbn [x0 x1 y0 y1] in *;
  let Ew := fresh "Ew" in let Eh := fresh "Eh" in
  pose proof (rect_width_page page HW) as Ew;
  pose proof (rect_height_page page HH) as Eh;
  unfold page_rect in Ew, Eh;
  repeat match goal with H : context [inject_Z _] |- _ => revert H end;
  rewrite ?Qdiv2, ?Qdiv4; eval_inject; intros.

(** C4: the cell rectangle is [col*W/2, row*H/4] x [(col+1)*W/2,
    (row+1)*H/4]; over the eight cells of the grid the interiors are
    pairwise disjoint and the closed rectangles cover exactly the page. *)
Theorem cell_rectangles_tile_page (page : Page) :
  (0 < page_width page)%Q → (0 < page_height page)%Q →
  let W := page_width page in
  let H := page_height page in
  (∀ col row,
     rect_eq (_get_rect page col row)
       (mkRect (inject_Z col * W / 2) (inject_Z row * H / 4)
               (inject_Z (col + 1) * W / 2) (inject_Z (row + 1) * H / 4))) ∧
  (∀ c r c' r', valid_cell c r → valid_cell c' r' → (c, r) ≠ (c', r') →
     ∀ x y, ¬ (interior (_get_rect page c r) x y ∧
               interior (_get_rect page c' r') x y)) ∧
  (∀ x y, inside (page_rect page) x y ↔
          ∃ c r, valid_cell c r ∧ inside (_get_rect page c r) x y).
Proof.
  intros HW HH W H. subst W H. split; [|split].
  - intros col row. unfold rect_eq, _get_rect; cbn [x0 x1 y0 y1].
    rewrite (rect_width_page page HW), (rect_height_page page HH).
    unfold Qdiv. repeat split; ring.
  - intros c r c' r' Hv Hv' Hne x y [Hin Hin'].
    each_cell Hv c r; each_cell Hv' c' r'; try congruence;
      cell_arith page HW HH; lra.
  - intros x y. split.
    + intros Hin.
      assert (∃ c, 0 <= c <= 1 ∧
                (inject_Z c * (page_width page / 2) <= x)%Q ∧
                (x <= inject_Z (c + 1) * (page_width page / 2))%Q) as (c & Hc & Hx).
      { unfold inside, page_rect in Hin; cbn [x0 x1 y0 y1] in Hin.
        destruct (Qlt_le_dec x (page_width page / 2)) as [Hlt|Hge];
          [exists 0 | exists 1]; (split; [lia|]);
          revert Hlt || revert Hge; rewrite ?Qdiv2; eval_inject; intros; lra. }
      assert (∃ r, 0 <= r <= 3 ∧
                (inject_Z r * (page_height page / 4) <= y)%Q ∧
                (y <= inject_Z (r + 1) * (page_height page / 4))%Q) as (r & Hr & Hy).
      { unfold inside, page_rect in Hin; cbn [x0 x1 y0 y1] in Hin.
        destruct (Qlt_le_dec y (page_height page / 4)) as [H1|H1];
          [exists 0; split; [lia|]; revert H1; rewrite ?Qdiv4; eval_inject; intros; lra|].
        destruct (Qlt_le_dec y (2 * (page_height page / 4))) as [H2|H2];
          [exists 1; split; [lia|]; revert H1 H2; rewrite ?Qdiv4; eval_inject; intros; lra|].
        destruct (Qlt_le_dec y (3 * (page_height page / 4))) as [H3|H3];
          [exists 2 | exists 3]; (split; [lia|]);
          revert H1 H2 H3; rewrite ?Qdiv4; eval_inject; intros; lra. }
      exists c, r. split; [done|].
      unfold inside, _get_rect; cbn [x0 x1 y0 y1].
      rewrite (rect_width_page page HW), (rect_height_page page HH). tauto.
    + intros (c & r & Hv & Hin).
      each_cell Hv c r; cell_arith page HW HH; lra.
Qed.

Lemma cell_rectangles_tile_page_witness :
  (0 < 595)%Q ∧ (0 < 842)%Q ∧
  ∀ x y, inside (page_rect (mkPage 595 842)) x y ↔
         ∃ c r, valid_cell c r ∧ inside (_get_rect (mkPage 595 842) c r) x y.
Proof.
  split; [reflexivity|]. split; [reflexivity|].
  apply (cell_rectangles_tile_page (mkPage 595 842)); reflexivity.
Defined.

(** ** Enumeration: the stated properties *)

(** C2: for an even page count P the enumeration has P/2 * 8 cards,
    numbered 1, 2, ..., P/2 * 8 in the order yielded, and the order is pair
    index ascending, then row 0..3, then column 0..1, pair k reading
    question page 2k and answer page 2k+1. *)
Theorem cards_even_page_count (pdf_doc : list Page) :
  Nat.Even (length pdf_doc) →
  let P := length pdf_doc in
  length (_cards pdf_doc) = (P / 2 * 8)%nat ∧
  map card_number (_cards pdf_doc) = map Z.of_nat (seq 1 (P / 2 * 8)) ∧
  map slot_of (_cards pdf_doc) = grid_order (range (P / 2)).
Proof.
  intros _ P. subst P. split; [apply _cards_length|].
  rewrite _cards_closed_form. split; [|apply numbered_slots].
  rewrite numbered_numbers, grid_order_length.
  unfold range at 1. rewrite length_map, length_seq.
  rewrite <- seq_shift, map_map. apply map_ext; intros i. lia.
Qed.

Lemma cards_even_page_count_witness :
  Nat.Even (length four_pages) ∧
  length (_cards four_pages) = 16%nat ∧
  map card_number (_cards four_pages) = map Z.of_nat (seq 1 16) ∧
  map slot_of (_cards four_pages) = grid_order (range 2).
Proof.
  split; [by exists 2%nat|].
  apply (cards_even_page_count four_pages). by exists 2%nat.
Defined.

(** C3: for an odd page count P the enumeration has floor(P/2) * 8 cards
    and none of them has page P-1 as its question page or answer page. *)
Theorem cards_odd_page_count (pdf_doc : list Page) :
  Nat.Odd (length pdf_doc) →
  let P := length pdf_doc in
  length (_cards pdf_doc) = (P / 2 * 8)%nat ∧
  ∀ card, card ∈ _cards pdf_doc →
    question_page card ≠ Z.of_nat P - 1 ∧ answer_page card ≠ Z.of_nat P - 1.
Proof.
  intros [m Hm] P. subst P. split; [apply _cards_length|].
  intros card Hc. apply _cards_elem in Hc as (k & Hk & -> & -> & _).
  assert (length pdf_doc / 2 = m)%nat as E.
  { rewrite Hm. symmetry. apply (Nat.div_unique _ 2 m 1); lia. }
  rewrite E in Hk. lia.
Qed.

Lemma cards_odd_page_count_witness :
  Nat.Odd (length [a4; a4; a4]) ∧
  length (_cards [a4; a4; a4]) = 8%nat ∧
  ∀ card, card ∈ _cards [a4; a4; a4] → question_page card ≠ 2 ∧ answer_page card ≠ 2.
Proof.
  split; [by exists 1%nat|].
  apply (cards_odd_page_count [a4; a4; a4]). by exists 1%nat.
Defined.

(** *** The scenarios of the specification, by evaluation *)

(** a 2-page source: 8 cards, numbered 1 to 8, all from pages 0 and 1 *)
Example scenario_two_pages :
  _cards two_pages =
  [(1, 0, 1, 0, 0); (2, 0, 1, 1, 0); (3, 0, 1, 0, 1); (4, 0, 1, 1, 1);
   (5, 0, 1, 0, 2); (6, 0, 1, 1, 2); (7, 0, 1, 0, 3); (8, 0, 1, 1, 3)].
Proof. reflexivity. Qed.

(** a 3-page source: the same 8 cards, page 2 is left out *)
Example scenario_three_pages : _cards [a4; a4; a4] = _cards two_pages.
Proof. reflexivity. Qed.

Example format_03d_examples :
  format_03d 7 = "007" ∧ format_03d 42 = "042" ∧ format_03d 123 = "123" ∧
  format_03d 1000 = "1000" ∧ format_03d 0 = "000" ∧ format_03d (-5) = "-05".
Proof. repeat split. Qed.

Example file_name_examples :
  front_path ["out"] (8, 0, 1, 1, 3) = ["out"; "008-Front.pdf"] ∧
  back_path ["out"] (8, 0, 1, 1, 3) = ["out"; "008-Back.pdf"] ∧
  merged_path ["out"] (8, 0, 1, 1, 3) = ["out"; "008-Merged.pdf"].
Proof. repeat split. Qed.

(** ** Runs: general facts *)

Section RunFacts.

Context (env : Env).

Lemma for_each_app {A} (xs ys : list A) (body : A → Run unit) (w : World) :
  for_each (xs ++ ys) body w = (for_each xs body;; for_each ys body) w.
Proof.
  revert w; induction xs as [|x xs IH]; intros w; simpl; [done|].
  unfold mbind, Run_bind in *. destruct (body x w) as [[[]|e] w1]; [|done].
  apply IH.
Qed.

Lemma for_each_acc_app {A S} (xs ys : list A) (body : S → A → Run S) (s : S) (w : World) :
  for_each_acc (xs ++ ys) body s w =
  (s1 ← for_each_acc xs body s; for_each_acc ys body s1) w.
Proof.
  revert s w; induction xs as [|x xs IH]; intros s w; simpl; [done|].
  unfold mbind, Run_bind in *. destruct (body s x w) as [[s1|e] w1]; [|done].
  apply IH.
Qed.

Lemma first_fault_app base p1 p2 :
  first_fault env base (p1 ++ p2) =
  match first_fault env base p1 with
  | Some f => Some f
  | None => prod_map (λ i, length p1 + i)%nat id <$> first_fault env (base + length p1) p2
  end.
Proof.
  revert base; induction p1 as [|op p1 IH]; intros base; simpl.
  - rewrite Nat.add_0_r. by destruct (first_fault env base p2) as [[]|].
  - destruct (fails env base op); [done|]. rewrite IH.
    destruct (first_fault env (S base) p1) as [[]|]; [done|].
    rewrite Nat.add_succ_r.
    by destruct (first_fault env _ p2) as [[]|].
Qed.

Lemma first_fault_app_None base p1 p2 :
  first_fault env base (p1 ++ p2) = None ↔
  first_fault env base p1 = None ∧ first_fault env (base + length p1) p2 = None.
Proof.
  rewrite first_fault_app. destruct (first_fault env base p1) as [[]|].
  - split; [done|]. by intros [? _].
  - destruct (first_fault env _ p2) as [[]|]; simpl; split; try done.
    by intros [_ ?].
Qed.

Lemma first_fault_cons_None base op plan :
  first_fault env base (op :: plan) = None ↔
  fails env base op = None ∧ first_fault env (S base) plan = None.
Proof.
  simpl. destruct (fails env base op); [by split; [|intros []]|].
  destruct (first_fault env (S base) plan) as [[]|]; simpl; [by split; [|intros []]|done].
Qed.

Lemma call_ok op effect w :
  fails env (length (trace w)) op = None →
  call env op effect w = (Returned tt, effect (log op w)).
Proof. unfold call. by intros ->. Qed.

Lemma call_raise op effect w e :
  fails env (length (trace w)) op = Some e →
  call env op effect w = (Raised e, log op w).
Proof. unfold call. by intros ->. Qed.

Lemma bind_returned {A B} (m : Run A) (k : A → Run B) w a w1 :
  m w = (Returned a, w1) → (m ≫= k) w = k a w1.
Proof. unfold mbind, Run_bind. by intros ->. Qed.

Lemma bind_raised {A B} (m : Run A) (k : A → Run B) w e w1 :
  m w = (Raised e, w1) → (m ≫= k) w = (Raised e, w1).
Proof. unfold mbind, Run_bind. by intros ->. Qed.

Lemma first_fault_lt base plan i e :
  first_fault env base plan = Some (i, e) → (i < length plan)%nat.
Proof.
  revert base i e; induction plan as [|op plan IH]; intros base i e; simpl; [done|].
  destruct (fails env base op); [intros [= <- _]; lia|].
  destruct (first_fault env (S base) plan) as [[j e']|] eqn:E; [|done].
  intros [= <- _]. apply IH in E. lia.
Qed.

(** A fault in the calls of a list of items lies in the calls of one
    item, all items before it being free of faults. *)
Lemma first_fault_item {A} (ops : A → list Op) (xs : list A) base i e :
  first_fault env base (xs ≫= ops) = Some (i, e) →
  ∃ pre x post j,
    xs = pre ++ x :: post ∧
    first_fault env base (pre ≫= ops) = None ∧
    first_fault env (base + length (pre ≫= ops)) (ops x) = Some (j, e) ∧
    i = (length (pre ≫= ops) + j)%nat.
Proof.
  revert base i; induction xs as [|x xs IH]; intros base i; [done|].
  rewrite bind_cons, first_fault_app.
  destruct (first_fault env base (ops x)) as [[j e']|] eqn:Ex.
  - intros [= -> ->]. exists [], x, xs, i. simpl. by rewrite Nat.add_0_r.
  - destruct (first_fault env _ (xs ≫= ops)) as [[i' e']|] eqn:Exs; [|done].
    intros [= <- <-]. apply IH in Exs as (pre & y & post & j & -> & Hpre & Hy & ->).
    exists (x :: pre), y, post, j. rewrite bind_cons, length_app.
    split; [done|]. split; [by apply first_fault_app_None|].
    split; [by rewrite Nat.add_assoc|lia].
Qed.

Lemma write_all_app kvs1 kvs2 fs :
  write_all (kvs1 ++ kvs2) fs = write_all kvs2 (write_all kvs1 fs).
Proof. apply foldl_app. Qed.

Lemma write_all_lookup_ne kvs fs (p : path) :
  p ∉ kvs.*1 → write_all kvs fs !! p = fs !! p.
Proof.
  revert fs; induction kvs as [|[k v] kvs IH]; intros fs Hp; [done|].
  simpl in *. apply not_elem_of_cons in Hp as [Hne Hp].
  rewrite IH by done. by rewrite lookup_insert_ne.
Qed.

Lemma write_all_lookup kvs fs (p : path) (data : Content) :
  NoDup kvs.*1 → (p, data) ∈ kvs → write_all kvs fs !! p = Some data.
Proof.
  revert fs; induction kvs as [|[k v] kvs IH]; intros fs Hnd Hin.
  - by apply elem_of_nil in Hin.
  - simpl in *. apply NoDup_cons in Hnd as [Hk Hnd].
    apply elem_of_cons in Hin as [[= -> ->]|Hin].
    + rewrite write_all_lookup_ne by done. apply lookup_insert_eq.
    + by apply IH.
Qed.

Lemma write_all_dom kvs fs :
  dom (write_all kvs fs) = dom fs ∪ list_to_set kvs.*1.
Proof.
  revert fs; induction kvs as [|[k v] kvs IH]; intros fs; simpl.
  - set_solver.
  - rewrite IH, dom_insert_L. set_solver.
Qed.

Lemma listing_write_all (dir : path) kvs fs :
  Forall (λ p, p ≠ [] ∧ path_parent p = dir) kvs.*1 →
  listing dir (write_all kvs fs) = listing dir fs ∪ list_to_set kvs.*1.
Proof.
  intros Hk. apply set_eq. intros p. unfold listing.
  rewrite elem_of_union, !elem_of_filter, write_all_dom, elem_of_union,
    elem_of_list_to_set.
  split; [tauto|]. intros [?|Hp]; [tauto|].
  split; [|by right]. by eapply Forall_forall in Hk.
Qed.

End RunFacts.

(** ** File names *)

Section Names.

Lemma list_ascii_app (s t : string) :
  list_ascii_of_string (s +:+ t) = list_ascii_of_string s ++ list_ascii_of_string t.
Proof. induction s as [|a s IH]; simpl; [done|]. by rewrite IH. Qed.

Lemma append_inj_l (s1 s2 t : string) : s1 +:+ t = s2 +:+ t → s1 = s2.
Proof.
  intros H. apply (f_equal list_ascii_of_string) in H.
  rewrite !list_ascii_app in H. apply app_inv_tail in H.
  rewrite <- (string_of_list_ascii_of_string s1), <- (string_of_list_ascii_of_string s2).
  by rewrite H.
Qed.

Lemma append_suffix_ne (s1 s2 t1 t2 : string) :
  length (list_ascii_of_string t1) = length (list_ascii_of_string t2) →
  t1 ≠ t2 → s1 +:+ t1 ≠ s2 +:+ t2.
Proof.
  intros Hlen Hne H. apply (f_equal list_ascii_of_string) in H.
  rewrite !list_ascii_app in H.
  apply app_inj_2 in H as [_ H]; [|done].
  apply Hne.
  rewrite <- (string_of_list_ascii_of_string t1), <- (string_of_list_ascii_of_string t2).
  by rewrite H.
Qed.

Lemma of_uint_zfill k d : N.of_uint (zfill k d) = N.of_uint d.
Proof. induction k as [|k IH]; simpl; [done|]. exact IH. Qed.

Lemma zfill_nonnil k d : d ≠ Decimal.Nil → zfill k d ≠ Decimal.Nil.
Proof. by destruct k. Qed.

Lemma N_to_uint_nonnil n : N.to_uint n ≠ Decimal.Nil.
Proof.
  destruct n as [|p]; [done|]. simpl. apply Unsigned.to_uint_nonnil.
Qed.

Lemma format_03d_inj (a b : Z) : 0 <= a → 0 <= b → format_03d a = format_03d b → a = b.
Proof.
  intros Ha Hb H.
  assert (∀ n, 0 <= n → format_03d n =
    NilZero.string_of_uint
      (zfill (3 - Decimal.nb_digits (N.to_uint (Z.to_N n))) (N.to_uint (Z.to_N n)))) as E.
  { by intros [|p|p] Hn. }
  rewrite !E in H by done.
  apply (f_equal NilZero.uint_of_string) in H.
  rewrite !NilZero.usu in H by apply zfill_nonnil, N_to_uint_nonnil.
  injection H as H. apply (f_equal N.of_uint) in H.
  rewrite !of_uint_zfill, !DecimalN.Unsigned.of_to in H. lia.
Qed.
End Names.

Section Keys.

Lemma path_parent_join (p : path) (name : string) : path_parent (path_join p name) = p.
Proof. apply removelast_last. Qed.

Lemma path_join_inj (p : path) (x y : string) : path_join p x = path_join p y → x = y.
Proof. unfold path_join. intros H. apply app_inv_head in H. by injection H. Qed.

Lemma path_join_nonempty (p : path) (x : string) : path_join p x ≠ [].
Proof. unfold path_join. by destruct p. Qed.

Lemma front_name_inj (a b : Z) : 0 <= a → 0 <= b → front_name a = front_name b → a = b.
Proof. intros Ha Hb H. apply format_03d_inj; [done..|]. by apply append_inj_l in H. Qed.

Lemma back_name_inj (a b : Z) : 0 <= a → 0 <= b → back_name a = back_name b → a = b.
Proof. intros Ha Hb H. apply format_03d_inj; [done..|]. by apply append_inj_l in H. Qed.

Lemma merged_name_inj (a b : Z) : 0 <= a → 0 <= b → merged_name a = merged_name b → a = b.
Proof. intros Ha Hb H. apply format_03d_inj; [done..|]. by apply append_inj_l in H. Qed.

End Keys.

(** ** Stepping through a run *)

(** put the world projections and trace positions in normal form *)
Ltac norm_world :=
  cbn [trace log set_files set_dirs fs_files fs_dirs stdout draws];
  rewrite ?length_app; cbn [length]; rewrite ?Nat.add_1_r.

(** decide the next outside call of the run in the goal *)
Ltac next_call env :=
  norm_world;
  match goal with
  | |- context [fails env ?n ?op] => destruct (fails env n op) eqn:?; simpl
  end.

Section Pages.

Context (env : Env) (pdf_doc : list Page).

Lemma getitem_ok (n : Z) (w : World) :
  0 <= n < Z.of_nat (length pdf_doc) →
  getitem pdf_doc n w = (Returned (page_of pdf_doc n), w).
Proof.
  intros Hn. unfold getitem, page_of.
  destruct (pdf_doc !! Z.to_nat n) as [page|] eqn:E.
  - replace ((0 <=? n) && (n <? Z.of_nat (length pdf_doc))) with true; [done|].
    symmetry. apply andb_true_iff. split; [apply Z.leb_le|apply Z.ltb_lt]; lia.
  - apply lookup_ge_None in E. lia.
Qed.

Lemma page_of_lookup (n : Z) :
  0 <= n < Z.of_nat (length pdf_doc) →
  pdf_doc !! Z.to_nat n = Some (page_of pdf_doc n).
Proof.
  intros Hn. unfold page_of.
  destruct (pdf_doc !! Z.to_nat n) as [page|] eqn:E; [done|].
  apply lookup_ge_None in E. lia.
Qed.

Lemma _cards_pages_ok : Forall (pages_ok pdf_doc) (_cards pdf_doc).
Proof.
  apply Forall_forall. intros card Hc.
  apply _cards_elem in Hc as (k & Hk & Hq & Ha & _).
  unfold pages_ok. rewrite Hq, Ha.
  assert (2 * (length pdf_doc / 2) <= length pdf_doc)%nat by apply Nat.Div0.mul_div_le.
  lia.
Qed.

Lemma _cards_numbers_NoDup : NoDup (card_number <$> _cards pdf_doc).
Proof.
  rewrite _cards_closed_form.
  change (card_number <$> ?l) with (map card_number l).
  rewrite numbered_numbers.
  assert (Inj (=) (=) (λ i : nat, 1 + Z.of_nat i)) by (intros i j Hij; lia).
  apply (NoDup_fmap_2 (λ i : nat, 1 + Z.of_nat i)), NoDup_seq.
Qed.

Lemma _cards_numbers_pos : Forall (λ c, 0 <= card_number c) (_cards pdf_doc).
Proof.
  apply Forall_forall. intros card Hc.
  assert (card_number card ∈ card_number <$> _cards pdf_doc) as Hn
    by (apply list_elem_of_fmap; eauto).
  rewrite _cards_closed_form in Hn.
  change (card_number <$> ?l) with (map card_number l) in Hn.
  rewrite numbered_numbers in Hn.
  apply list_elem_of_fmap in Hn as (i & -> & _). lia.
Qed.

End Pages.

(** ** Document strategies: the shared loop

    The separate-files and the merged strategy have the same shape: make
    the directory, run a body for every card, print the last line.  The
    facts below hold for any body that behaves as described by [ops] (the
    calls it makes) and [writes] (the files it leaves). *)

Section DocumentLoop.

Context (env : Env) (pdf_doc : list Page) (out : path).
Context (body : Card → Run unit).
Context (ops : Card → list Op) (writes : Card → list (path * Content)).

Hypothesis body_ok : ∀ card w,
  pages_ok pdf_doc card →
  first_fault env (length (trace w)) (ops card) = None →
  body card w =
  (Returned tt,
   mkWorld (fs_dirs w) (write_all (writes card) (fs_files w))
     (stdout w ++ [card_line (card_number card)])
     (trace w ++ ops card) (draws w)).

Hypothesis body_raise : ∀ card w j e,
  pages_ok pdf_doc card →
  first_fault env (length (trace w)) (ops card) = Some (j, e) →
  ∃ w', body card w = (Raised e, w') ∧
        trace w' = trace w ++ take (S j) (ops card) ∧
        stdout w' = stdout w ∧
        ∀ p, p ∉ (writes card).*1 → fs_files w' !! p = fs_files w !! p.

Hypothesis keys_one : ∀ card, NoDup (writes card).*1.

Hypothesis keys_apart : ∀ c c' p,
  0 <= card_number c → 0 <= card_number c' → card_number c ≠ card_number c' →
  p ∈ (writes c).*1 → p ∈ (writes c').*1 → False.

Hypothesis keys_in_out : ∀ card p,
  p ∈ (writes card).*1 → p ≠ [] ∧ path_parent p = out.

Lemma loop_ok (cards : list Card) (w : World) :
  Forall (pages_ok pdf_doc) cards →
  first_fault env (length (trace w)) (cards ≫= ops) = None →
  for_each cards body w =
  (Returned tt,
   mkWorld (fs_dirs w) (write_all (cards ≫= writes) (fs_files w))
     (stdout w ++ card_lines cards) (trace w ++ (cards ≫= ops)) (draws w)).
Proof.
  revert w; induction cards as [|card cards IH]; intros w Hok Hf.
  - unfold card_lines. simpl. rewrite !app_nil_r. by destruct w.
  - apply Forall_cons in Hok as [Hc Hok].
    rewrite bind_cons in Hf. apply first_fault_app_None in Hf as [Hf1 Hf2].
    cbn [for_each]. erewrite bind_returned; [|by apply body_ok].
    rewrite IH; [|done|cbn [trace]; by rewrite length_app].
    cbn [fs_dirs fs_files stdout trace draws]. unfold card_lines.
    rewrite !bind_cons, write_all_app, fmap_cons, <- !app_assoc. done.
Qed.

Lemma loop_abort (pre post : list Card) (card : Card) (w : World) j e :
  Forall (pages_ok pdf_doc) (pre ++ [card]) →
  first_fault env (length (trace w)) (pre ≫= ops) = None →
  first_fault env (length (trace w) + length (pre ≫= ops)) (ops card) = Some (j, e) →
  ∃ w', for_each (pre ++ card :: post) body w = (Raised e, w') ∧
        trace w' = trace w ++ (pre ≫= ops) ++ take (S j) (ops card) ∧
        stdout w' = stdout w ++ card_lines pre ∧
        ∀ p, p ∉ (writes card).*1 →
             fs_files w' !! p = write_all (pre ≫= writes) (fs_files w) !! p.
Proof.
  intros Hok Hpre Hcard. apply Forall_app in Hok as [Hok Hc].
  apply Forall_cons in Hc as [Hc _].
  rewrite for_each_app. erewrite bind_returned; [|by apply loop_ok].
  cbn [for_each].
  match goal with |- context [mbind _ (body card) ?w1] =>
    destruct (body_raise card w1 j e Hc) as (w' & Hrun & Ht & Hs & Hfs)
  end.
  { cbn [trace]. rewrite length_app. exact Hcard. }
  exists w'. split; [by apply bind_raised|]. cbn [trace stdout fs_files] in *.
  rewrite Ht, Hs, <- app_assoc. done.
Qed.

Lemma keys_elem (cards : list Card) (p : path) :
  p ∈ (cards ≫= writes).*1 → ∃ card, card ∈ cards ∧ p ∈ (writes card).*1.
Proof.
  intros (kv & -> & H)%list_elem_of_fmap.
  apply list_elem_of_bind in H as (card & H & Hc).
  exists card. split; [done|]. apply list_elem_of_fmap. eauto.
Qed.

Lemma keys_NoDup (cards : list Card) :
  NoDup (card_number <$> cards) → Forall (λ c, 0 <= card_number c) cards →
  NoDup (cards ≫= writes).*1.
Proof.
  induction cards as [|card cards IH]; intros Hnd Hpos; [constructor|].
  rewrite fmap_cons in Hnd. apply NoDup_cons in Hnd as [Hn Hnd].
  apply Forall_cons in Hpos as [Hp Hpos].
  rewrite bind_cons, fmap_app. apply NoDup_app.
  split; [apply keys_one|]. split; [|by apply IH].
  intros p Hp1 Hp2. apply keys_elem in Hp2 as (c & Hc & Hp2).
  apply (keys_apart card c p); try done.
  - by eapply Forall_forall in Hpos.
  - intros E. apply Hn. rewrite E. apply list_elem_of_fmap; eauto.
Qed.

(** No call fails: the run returns, and the final world is known. *)
Lemma document_export_ok (w : World) :
  first_fault env (length (trace w)) (document_plan out ops (_cards pdf_doc)) = None →
  document_run env pdf_doc out body w =
  (Returned tt,
   mkWorld (fs_dirs w ∪ list_to_set (ancestors out))
     (write_all (_cards pdf_doc ≫= writes) (fs_files w))
     (stdout w ++ card_lines (_cards pdf_doc) ++ [exported_line out])
     (trace w ++ document_plan out ops (_cards pdf_doc)) (draws w)).
Proof.
  unfold document_plan, document_run, mkdir.
  intros [Hm Hl]%first_fault_cons_None.
  erewrite bind_returned; [|by apply call_ok].
  erewrite bind_returned; [|apply loop_ok; [apply _cards_pages_ok|]].
  - unfold print. cbn [fs_dirs fs_files stdout trace draws log set_dirs].
    by rewrite <- !app_assoc.
  - by norm_world.
Qed.

(** The first failing call belongs to card [card]: the exception leaves
    the run, nothing is called after it, and what the earlier cards wrote
    is still there. *)
Lemma document_export_abort (w : World) pre card post j e :
  _cards pdf_doc = pre ++ card :: post →
  first_fault env (length (trace w)) (Mkdir out :: (pre ≫= ops)) = None →
  first_fault env (length (trace w) + S (length (pre ≫= ops))) (ops card) = Some (j, e) →
  ∃ w', document_run env pdf_doc out body w = (Raised e, w') ∧
        trace w' = trace w ++ (Mkdir out :: (pre ≫= ops)) ++ take (S j) (ops card) ∧
        stdout w' = stdout w ++ card_lines pre ∧
        ∀ c p data, c ∈ pre → (p, data) ∈ writes c → fs_files w' !! p = Some data.
Proof.
  intros Hcards. unfold document_run, mkdir.
  intros [Hm Hl]%first_fault_cons_None Hc.
  rewrite Nat.add_succ_r in Hc.
  pose proof (_cards_pages_ok pdf_doc) as Hok. rewrite Hcards in Hok.
  pose proof (_cards_numbers_NoDup pdf_doc) as Hnd. rewrite Hcards in Hnd.
  pose proof (_cards_numbers_pos pdf_doc) as Hpos. rewrite Hcards in Hpos.
  erewrite bind_returned; [|by apply call_ok].
  rewrite Hcards.
  destruct (loop_abort pre post card
              (set_dirs (λ ds, ds ∪ list_to_set (ancestors out)) (log (Mkdir out) w)) j e)
    as (w' & Hrun & Ht & Hs & Hfs).
  { apply Forall_app in Hok as [Hok1 Hok2]. apply Forall_cons in Hok2 as [Hok2 _].
    apply Forall_app. split; [done|]. by constructor. }
  { by norm_world. }
  { by norm_world. }
  exists w'. split; [by apply bind_raised|].
  cbn [trace log set_dirs stdout fs_files] in *.
  rewrite Ht, Hs, <- !app_assoc. split; [done|]. split; [done|].
  intros c p data Hin Hw.
  rewrite fmap_app, fmap_cons in Hnd. apply NoDup_app in Hnd as (Hnd1 & Hnd2 & _).
  apply Forall_app in Hpos as [Hpos1 Hpos2].
  apply Forall_cons in Hpos2 as [Hpos2 _].
  rewrite Hfs.
  - apply write_all_lookup; [by apply keys_NoDup|].
    apply list_elem_of_bind. eauto.
  - intros Hp. apply (keys_apart c card p); try done.
    + by eapply Forall_forall in Hpos1.
    + intros E. apply (Hnd2 (card_number c)); [apply list_elem_of_fmap; eauto|].
      rewrite E. by left.
    + apply list_elem_of_fmap. by exists (p, data).
Qed.

(** Every run, whatever fails: the calls made are an initial part of the
    plan, and all of it when the run returns. *)
Lemma document_export_trace (w : World) :
  ∃ r w' n, document_run env pdf_doc out body w = (r, w') ∧
            trace w' = trace w ++ take n (document_plan out ops (_cards pdf_doc)) ∧
            (r = Returned tt →
             trace w' = trace w ++ document_plan out ops (_cards pdf_doc)).
Proof.
  destruct (first_fault env (length (trace w))
              (document_plan out ops (_cards pdf_doc))) as [[i e]|] eqn:Hf.
  - revert Hf. unfold document_plan. cbn [first_fault].
    destruct (fails env (length (trace w)) (Mkdir out)) as [e0|] eqn:Hm.
    + intros _. exists (Raised e0), (log (Mkdir out) w), 1%nat.
      split; [|done]. unfold document_run, mkdir.
      apply bind_raised. by apply call_raise.
    + destruct (first_fault env _ _) as [[i' e']|] eqn:Hl; [|done].
      intros [= <- <-].
      apply first_fault_item in Hl as (pre & card & post & j & Hcards & Hpre & Hcard & ->).
      destruct (document_export_abort w pre card post j e' Hcards)
        as (w' & Hrun & Ht & _).
      { by apply first_fault_cons_None. }
      { by rewrite Nat.add_succ_r, <- Nat.add_succ_l. }
      exists (Raised e'), w', (S (length (pre ≫= ops) + S j)).
      split; [done|]. split; [|done].
      rewrite Ht, Hcards, bind_app, bind_cons. cbn [take]. do 2 f_equal.
      rewrite take_app_add', take_app_le; [done| |done].
      pose proof (first_fault_lt _ _ _ _ _ Hcard). lia.
  - exists (Returned tt). eexists. exists (length (document_plan out ops (_cards pdf_doc))).
    split; [by apply document_export_ok|]. cbn [trace].
    by rewrite firstn_all.
Qed.

(** Into a directory that holds no file yet, the run leaves exactly the
    files of the cards. *)
Lemma document_export_listing (w : World) :
  listing out (fs_files w) = ∅ →
  listing out (write_all (_cards pdf_doc ≫= writes) (fs_files w)) =
    list_to_set (_cards pdf_doc ≫= writes).*1 ∧
  size (listing out (write_all (_cards pdf_doc ≫= writes) (fs_files w))) =
    length (_cards pdf_doc ≫= writes).
Proof.
  intros Hfresh. rewrite listing_write_all, Hfresh, (left_id_L ∅ (∪)).
  - split; [done|]. rewrite size_list_to_set, length_fmap; [done|].
    apply keys_NoDup; [apply _cards_numbers_NoDup|apply _cards_numbers_pos].
  - apply Forall_forall. intros p (card & _ & Hp)%keys_elem. by eapply keys_in_out.
Qed.

End DocumentLoop.

(** ** The separate-files strategy *)

Section Separate.

Context (env : Env) (pdf_doc : list Page) (out : path).

Lemma export_pdf_separate_shape :
  export_pdf_separate env pdf_doc out =
  document_run env pdf_doc out (separate_body env pdf_doc out).
Proof. reflexivity. Qed.

Lemma separate_body_ok (card : Card) (w : World) :
  pages_ok pdf_doc card →
  first_fault env (length (trace w)) (separate_ops out card) = None →
  separate_body env pdf_doc out card w =
  (Returned tt,
   mkWorld (fs_dirs w) (write_all (separate_writes pdf_doc out card) (fs_files w))
     (stdout w ++ [card_line (card_number card)])
     (trace w ++ separate_ops out card) (draws w)).
Proof.
  destruct card as [[[[num q] a] col] row]. intros [Hq Ha]. simpl in Hq, Ha.
  unfold separate_body, _extract_pdf, write_bytes, call, print.
  unfold mbind, Run_bind, mret, Run_ret. cbn [first_fault separate_ops].
  rewrite getitem_ok by done.
  next_call env; [done|]. next_call env; [done|].
  rewrite getitem_ok by done.
  next_call env; [done|]. next_call env; [done|].
  intros _. rewrite <- !app_assoc. reflexivity.
Qed.

Lemma separate_body_raise (card : Card) (w : World) (j : nat) (e : Exn) :
  pages_ok pdf_doc card →
  first_fault env (length (trace w)) (separate_ops out card) = Some (j, e) →
  ∃ w', separate_body env pdf_doc out card w = (Raised e, w') ∧
        trace w' = trace w ++ take (S j) (separate_ops out card) ∧
        stdout w' = stdout w ∧
        ∀ p, p ∉ (separate_writes pdf_doc out card).*1 →
             fs_files w' !! p = fs_files w !! p.
Proof.
  destruct card as [[[[num q] a] col] row]. intros [Hq Ha]. simpl in Hq, Ha.
  unfold separate_body, _extract_pdf, write_bytes, call, print.
  unfold mbind, Run_bind, mret, Run_ret. cbn [first_fault separate_ops].
  rewrite getitem_ok by done.
  next_call env.
  { intros [= <- <-]. eexists; split; [done|]. norm_world. done. }
  next_call env.
  { intros [= <- <-]. eexists; split; [done|]. norm_world. rewrite <- !app_assoc. done. }
  rewrite getitem_ok by done.
  next_call env.
  { intros [= <- <-]. eexists; split; [done|]. norm_world. rewrite <- !app_assoc.
    split; [done|]. split; [done|]. intros p Hp.
    rewrite lookup_insert_ne; [done|]. intros <-. apply Hp. by left. }
  next_call env; [|done].
  intros [= <- <-]. eexists; split; [done|]. norm_world. rewrite <- !app_assoc.
  split; [done|]. split; [done|]. intros p Hp.
  rewrite lookup_insert_ne; [done|]. intros <-. apply Hp. by left.
Qed.

Lemma front_back_ne (a b : Z) : path_join out (front_name a) ≠ path_join out (back_name b).
Proof.
  intros H%path_join_inj. revert H. unfold front_name, back_name.
  intros H. apply (f_equal list_ascii_of_string) in H.
  rewrite !list_ascii_app in H. apply (f_equal reverse) in H.
  rewrite !reverse_app in H. cbn in H. congruence.
Qed.

Lemma separate_keys (card : Card) :
  (separate_writes pdf_doc out card).*1 = [front_path out card; back_path out card].
Proof. by destruct card as [[[[num q] a] col] row]. Qed.

Lemma separate_keys_one (card : Card) : NoDup (separate_writes pdf_doc out card).*1.
Proof.
  rewrite separate_keys. apply NoDup_cons. split; [|apply NoDup_singleton].
  intros H%list_elem_of_singleton. by apply front_back_ne in H.
Qed.

Lemma separate_keys_apart (c c' : Card) (p : path) :
  0 <= card_number c → 0 <= card_number c' → card_number c ≠ card_number c' →
  p ∈ (separate_writes pdf_doc out c).*1 →
  p ∈ (separate_writes pdf_doc out c').*1 → False.
Proof.
  intros Hc Hc' Hne. rewrite !separate_keys. unfold front_path, back_path.
  intros [->|[->|[]%elem_of_nil]%elem_of_cons]%elem_of_cons
         [H|[H|[]%elem_of_nil]%elem_of_cons]%elem_of_cons.
  - apply path_join_inj, front_name_inj in H; done.
  - by apply front_back_ne in H.
  - symmetry in H. by apply front_back_ne in H.
  - apply path_join_inj, back_name_inj in H; done.
Qed.

Lemma separate_keys_in_out (card : Card) (p : path) :
  p ∈ (separate_writes pdf_doc out card).*1 → p ≠ [] ∧ path_parent p = out.
Proof.
  rewrite separate_keys. unfold front_path, back_path.
  intros [->|[->|[]%elem_of_nil]%elem_of_cons]%elem_of_cons;
    (split; [apply path_join_nonempty|apply path_parent_join]).
Qed.

End Separate.

(** ** The merged strategy *)

Section Merged.

Context (env : Env) (pdf_doc : list Page) (out : path).

Lemma export_pdf_merged_shape :
  export_pdf_merged env pdf_doc out =
  document_run env pdf_doc out (merged_body env pdf_doc out).
Proof. reflexivity. Qed.

Lemma merged_body_ok (card : Card) (w : World) :
  pages_ok pdf_doc card →
  first_fault env (length (trace w)) (merged_ops out card) = None →
  merged_body env pdf_doc out card w =
  (Returned tt,
   mkWorld (fs_dirs w) (write_all (merged_writes pdf_doc out card) (fs_files w))
     (stdout w ++ [card_line (card_number card)])
     (trace w ++ merged_ops out card) (draws w)).
Proof.
  destruct card as [[[[num q] a] col] row]. intros [Hq Ha]. simpl in Hq, Ha.
  unfold merged_body, _extract_pdf, open_stream, insert_pdf, save, call, print.
  unfold mbind, Run_bind, mret, Run_ret. cbn [first_fault merged_ops].
  rewrite getitem_ok by done.
  next_call env; [done|]. next_call env; [done|]. next_call env; [done|].
  rewrite getitem_ok by done.
  next_call env; [done|]. next_call env; [done|]. next_call env; [done|].
  next_call env; [done|].
  intros _. rewrite <- !app_assoc. reflexivity.
Qed.

Lemma merged_body_raise (card : Card) (w : World) (j : nat) (e : Exn) :
  pages_ok pdf_doc card →
  first_fault env (length (trace w)) (merged_ops out card) = Some (j, e) →
  ∃ w', merged_body env pdf_doc out card w = (Raised e, w') ∧
        trace w' = trace w ++ take (S j) (merged_ops out card) ∧
        stdout w' = stdout w ∧
        ∀ p, p ∉ (merged_writes pdf_doc out card).*1 →
             fs_files w' !! p = fs_files w !! p.
Proof.
  destruct card as [[[[num q] a] col] row]. intros [Hq Ha]. simpl in Hq, Ha.
  unfold merged_body, _extract_pdf, open_stream, insert_pdf, save, call, print.
  unfold mbind, Run_bind, mret, Run_ret. cbn [first_fault merged_ops].
  rewrite getitem_ok by done.
  do 3 (next_call env;
    [intros [= <- <-]; eexists; split; [done|]; norm_world;
     rewrite <- ?app_assoc; done|]).
  rewrite getitem_ok by done.
  do 4 (next_call env;
    [intros [= <- <-]; eexists; split; [done|]; norm_world;
     rewrite <- ?app_assoc; done|]).
  done.
Qed.

Lemma merged_keys (card : Card) :
  (merged_writes pdf_doc out card).*1 = [merged_path out card].
Proof. by destruct card as [[[[num q] a] col] row]. Qed.

Lemma merged_keys_one (card : Card) : NoDup (merged_writes pdf_doc out card).*1.
Proof. rewrite merged_keys. apply NoDup_singleton. Qed.

Lemma merged_keys_apart (c c' : Card) (p : path) :
  0 <= card_number c → 0 <= card_number c' → card_number c ≠ card_number c' →
  p ∈ (merged_writes pdf_doc out c).*1 →
  p ∈ (merged_writes pdf_doc out c').*1 → False.
Proof.
  intros Hc Hc' Hne. rewrite !merged_keys. unfold merged_path.
  intros ->%list_elem_of_singleton H%list_elem_of_singleton.
  apply path_join_inj, merged_name_inj in H; done.
Qed.

Lemma merged_keys_in_out (card : Card) (p : path) :
  p ∈ (merged_writes pdf_doc out card).*1 → p ≠ [] ∧ path_parent p = out.
Proof.
  rewrite merged_keys. unfold merged_path. intros ->%list_elem_of_singleton.
  split; [apply path_join_nonempty|apply path_parent_join].
Qed.

End Merged.

(** ** The package strategy *)

Section Anki.

Context (env : Env) (pdf_doc : list Page).

Lemma anki_body_ok temp_dir model st (card : Card) (w : World) :
  pages_ok pdf_doc card →
  first_fault env (length (trace w)) (anki_ops temp_dir card) = None →
  ∃ st' w', anki_body env pdf_doc temp_dir model st card w = (Returned st', w') ∧
            trace w' = trace w ++ anki_ops temp_dir card ∧
            stdout w' = stdout w ++ [card_line (card_number card)].
Proof.
  destruct card as [[[[num q] a] col] row], st as [media notes].
  intros [Hq Ha]. simpl in Hq, Ha.
  unfold anki_body, _extract_image, write_bytes, call, print.
  unfold mbind, Run_bind, mret, Run_ret. cbn [first_fault anki_ops].
  rewrite getitem_ok by done.
  next_call env; [done|]. next_call env; [done|].
  rewrite getitem_ok by done.
  next_call env; [done|]. next_call env; [done|].
  intros _. do 2 eexists. split; [done|]. norm_world.
  by rewrite <- !app_assoc.
Qed.

Lemma anki_body_raise temp_dir model st (card : Card) (w : World) j e :
  pages_ok pdf_doc card →
  first_fault env (length (trace w)) (anki_ops temp_dir card) = Some (j, e) →
  ∃ w', anki_body env pdf_doc temp_dir model st card w = (Raised e, w') ∧
        trace w' = trace w ++ take (S j) (anki_ops temp_dir card) ∧
        stdout w' = stdout w.
Proof.
  destruct card as [[[[num q] a] col] row], st as [media notes].
  intros [Hq Ha]. simpl in Hq, Ha.
  unfold anki_body, _extract_image, write_bytes, call, print.
  unfold mbind, Run_bind, mret, Run_ret. cbn [first_fault anki_ops].
  rewrite getitem_ok by done.
  do 2 (next_call env;
    [intros [= <- <-]; eexists; split; [done|]; norm_world;
     rewrite <- ?app_assoc; done|]).
  rewrite getitem_ok by done.
  do 2 (next_call env;
    [intros [= <- <-]; eexists; split; [done|]; norm_world;
     rewrite <- ?app_assoc; done|]).
  done.
Qed.

Lemma anki_loop_ok temp_dir model (cards : list Card) st (w : World) :
  Forall (pages_ok pdf_doc) cards →
  first_fault env (length (trace w)) (cards ≫= anki_ops temp_dir) = None →
  ∃ st' w', for_each_acc cards (anki_body env pdf_doc temp_dir model) st w =
              (Returned st', w') ∧
            trace w' = trace w ++ (cards ≫= anki_ops temp_dir) ∧
            stdout w' = stdout w ++ card_lines cards.
Proof.
  revert st w; induction cards as [|card cards IH]; intros st w Hok Hf.
  - exists st, w. unfold card_lines. simpl. by rewrite !app_nil_r.
  - apply Forall_cons in Hok as [Hc Hok].
    rewrite bind_cons in Hf. apply first_fault_app_None in Hf as [Hf1 Hf2].
    destruct (anki_body_ok temp_dir model st card w Hc Hf1) as (st1 & w1 & Hb & Ht1 & Hs1).
    destruct (IH st1 w1 Hok) as (st2 & w2 & Hl & Ht2 & Hs2).
    { by rewrite Ht1, length_app. }
    exists st2, w2. cbn [for_each_acc].
    split; [by erewrite bind_returned|].
    rewrite Ht2, Ht1, Hs2, Hs1, bind_cons. unfold card_lines.
    by rewrite fmap_cons, <- !app_assoc.
Qed.

Lemma anki_loop_abort temp_dir model (pre post : list Card) (card : Card) st w j e :
  Forall (pages_ok pdf_doc) (pre ++ [card]) →
  first_fault env (length (trace w)) (pre ≫= anki_ops temp_dir) = None →
  first_fault env (length (trace w) + length (pre ≫= anki_ops temp_dir))
    (anki_ops temp_dir card) = Some (j, e) →
  ∃ w', for_each_acc (pre ++ card :: post) (anki_body env pdf_doc temp_dir model) st w =
          (Raised e, w') ∧
        trace w' = trace w ++ (pre ≫= anki_ops temp_dir) ++
                   take (S j) (anki_ops temp_dir card) ∧
        stdout w' = stdout w ++ card_lines pre.
Proof.
  intros Hok Hpre Hcard. apply Forall_app in Hok as [Hok Hc].
  apply Forall_cons in Hc as [Hc _].
  destruct (anki_loop_ok temp_dir model pre st w Hok Hpre) as (st1 & w1 & Hl & Ht1 & Hs1).
  destruct (anki_body_raise temp_dir model st1 card w1 j e Hc) as (w' & Hb & Ht & Hs).
  { by rewrite Ht1, length_app. }
  exists w'. rewrite for_each_acc_app. erewrite bind_returned; [|done].
  cbn [for_each_acc]. split; [by apply bind_raised|].
  by rewrite Ht, Hs, Ht1, Hs1, <- app_assoc.
Qed.

(** every run of the loop: the calls made are an initial part of the
    calls of the cards, all of them when the loop finishes *)
Lemma anki_loop_trace temp_dir model st (w : World) :
  ∃ r w' n,
    for_each_acc (_cards pdf_doc) (anki_body env pdf_doc temp_dir model) st w = (r, w') ∧
    trace w' = trace w ++ take n (_cards pdf_doc ≫= anki_ops temp_dir) ∧
    ((∃ st', r = Returned st') →
     trace w' = trace w ++ (_cards pdf_doc ≫= anki_ops temp_dir)).
Proof.
  destruct (first_fault env (length (trace w)) (_cards pdf_doc ≫= anki_ops temp_dir))
    as [[i e]|] eqn:Hf.
  - apply first_fault_item in Hf as (pre & card & post & j & Hcards & Hpre & Hcard & ->).
    pose proof (_cards_pages_ok pdf_doc) as Hok. rewrite Hcards in Hok.
    destruct (anki_loop_abort temp_dir model pre post card st w j e)
      as (w' & Hrun & Ht & _); [|done..|].
    { apply Forall_app in Hok as [Hok1 Hok2]. apply Forall_cons in Hok2 as [Hok2 _].
      apply Forall_app. split; [done|]. by constructor. }
    exists (Raised e), w', (length (pre ≫= anki_ops temp_dir) + S j)%nat.
    rewrite Hcards. split; [done|]. split; [|by intros [? [=]]].
    rewrite Ht, bind_app, bind_cons. f_equal.
    rewrite take_app_add', take_app_le; [done| |done].
    pose proof (first_fault_lt _ _ _ _ _ Hcard). lia.
  - destruct (anki_loop_ok temp_dir model (_cards pdf_doc) st w) as (st' & w' & Hl & Ht & _);
      [apply _cards_pages_ok|done|].
    exists (Returned st'), w', (length (_cards pdf_doc ≫= anki_ops temp_dir)).
    split; [done|]. by rewrite firstn_all.
Qed.

Lemma rmtree_spec (dir : path) (w : World) :
  ∃ w', rmtree dir w = (Returned tt, w') ∧
        absent dir w' ∧
        trace w' = trace w ++ [Rmtree dir] ∧
        stdout w' = stdout w ∧
        ∀ p, ¬ dir `prefix_of` p → fs_files w' !! p = fs_files w !! p.
Proof.
  eexists. split; [done|]. cbn [trace stdout fs_files fs_dirs set_files set_dirs log].
  split; [|split; [done|split; [done|]]].
  - intros p Hp. cbn [fs_dirs fs_files set_files set_dirs log]. split.
    + rewrite elem_of_filter. tauto.
    + apply map_lookup_filter_None. right. intros x _. simpl. tauto.
  - intros p Hp. destruct (fs_files w !! p) as [x|] eqn:E.
    + by apply map_lookup_filter_Some.
    + apply map_lookup_filter_None. by left.
Qed.

Lemma write_to_file_trace deck media (p : path) (w : World) :
  ∃ r w', write_to_file env deck media p w = (r, w') ∧
          trace w' = trace w ++ [WriteToFile p] ∧ stdout w' = stdout w.
Proof.
  unfold write_to_file.
  destruct (fails env _ _); [by do 2 eexists|].
  destruct (read_media _ _); by do 2 eexists.
Qed.

(** Once the directory of the output exists and the scratch directory
    is made, the run is the [try] block with its clean-up; the identifiers
    are the two random draws. *)
Lemma export_anki_enter out deck_name (w : World) :
  fails env (length (trace w)) (Mkdir (path_parent out)) = None →
  fails env (S (length (trace w))) Mkdtemp = None →
  ∃ did mid,
    export_anki env pdf_doc out deck_name w =
    (try_finally (anki_try env pdf_doc out deck_name did (image_model mid) (scratch env))
                 (rmtree (scratch env));;
     print (exported_line out)) (anki_entered env out w).
Proof.
  intros Hm Ht. do 2 eexists. unfold export_anki, mkdir, mkdtemp, randrange.
  erewrite bind_returned; [|by apply call_ok].
  erewrite bind_returned; [|done]. erewrite bind_returned; [|done].
  erewrite bind_returned.
  2:{ erewrite bind_returned; [done|]. apply call_ok. by norm_world. }
  unfold anki_entered, set_dirs, log. cbn [trace fs_dirs fs_files stdout draws].
  by rewrite <- app_assoc.
Qed.

(** whatever the [try] block does, the scratch directory is gone when
    the strategy is left, and removing it was the last call *)
Lemma try_rmtree_spec {A} (block : Run A) (dir : path) (w : World) :
  ∃ r w1 w', block w = (r, w1) ∧
             try_finally block (rmtree dir) w = (r, w') ∧
             absent dir w' ∧
             trace w' = trace w1 ++ [Rmtree dir] ∧
             stdout w' = stdout w1 ∧
             ∀ p, ¬ dir `prefix_of` p → fs_files w' !! p = fs_files w1 !! p.
Proof.
  unfold try_finally. destruct (block w) as [r w1].
  destruct (rmtree_spec dir w1) as (w' & -> & Ha & Ht & Hs & Hf).
  by exists r, w1, w'.
Qed.

End Anki.

(** ** The cells a run asks for *)

Section Requests.

Lemma renders_app (l1 l2 : list Op) : renders (l1 ++ l2) = renders l1 ++ renders l2.
Proof. apply omap_app. Qed.

Lemma renders_take_prefix (n : nat) (l : list Op) : renders (take n l) `prefix_of` renders l.
Proof.
  rewrite <- (take_drop n l) at 2. rewrite renders_app. by apply prefix_app_r.
Qed.

Lemma renders_bind (ops : Card → list Op) (cards : list Card) :
  (∀ card, renders (ops card) =
           [(question_page card, column card, row_of card);
            (answer_page card, 1 - column card, row_of card)]) →
  renders (cards ≫= ops) = mirrored_requests cards.
Proof.
  intros Hops. unfold mirrored_requests.
  induction cards as [|card cards IH]; [done|].
  by rewrite !bind_cons, renders_app, IH, Hops.
Qed.

Lemma renders_separate (out : path) (cards : list Card) :
  renders (cards ≫= separate_ops out) = mirrored_requests cards.
Proof. apply renders_bind. by intros [[[[num q] a] col] row]. Qed.

Lemma renders_merged (out : path) (cards : list Card) :
  renders (cards ≫= merged_ops out) = mirrored_requests cards.
Proof. apply renders_bind. by intros [[[[num q] a] col] row]. Qed.

Lemma renders_anki (temp_dir : path) (cards : list Card) :
  renders (cards ≫= anki_ops temp_dir) = mirrored_requests cards.
Proof. apply renders_bind. by intros [[[[num q] a] col] row]. Qed.

(** a document run reads mirrored cells as soon as the calls of its body
    do *)
Lemma document_reads_mirrored (pdf_doc : list Page) (out : path) (run : Run unit)
    (ops : Card → list Op) (w : World) :
  (∀ cards, renders (cards ≫= ops) = mirrored_requests cards) →
  (∃ r w' n, run w = (r, w') ∧
             trace w' = trace w ++ take n (document_plan out ops (_cards pdf_doc)) ∧
             (r = Returned tt →
              trace w' = trace w ++ document_plan out ops (_cards pdf_doc))) →
  reads_mirrored pdf_doc run w.
Proof.
  intros Hops (r & w' & n & Hrun & Ht & Hret).
  assert (renders (document_plan out ops (_cards pdf_doc)) =
          mirrored_requests (_cards pdf_doc)) as Hplan.
  { unfold document_plan. by rewrite <- Hops. }
  exists r, w', (take n (document_plan out ops (_cards pdf_doc))).
  split; [done|]. split; [done|]. split.
  - rewrite <- Hplan. apply renders_take_prefix.
  - intros Hr. apply Hret in Hr. rewrite Ht in Hr. apply app_inv_head in Hr.
    by rewrite Hr.
Qed.

End Requests.

Section AnkiRuns.

Context (env : Env) (pdf_doc : list Page) (out : path) (deck_name : string).

Lemma anki_try_reads_mirrored did model temp_dir (w : World) :
  reads_mirrored pdf_doc (anki_try env pdf_doc out deck_name did model temp_dir) w.
Proof.
  destruct (anki_loop_trace env pdf_doc temp_dir model ([], []) w)
    as (r1 & w1 & n & Hloop & Ht & Hfull).
  unfold anki_try. destruct r1 as [[media notes]|e].
  - destruct (write_to_file_trace env (mkDeck did deck_name notes) media out w1)
      as (r2 & w2 & Hw & Ht2 & _).
    exists r2, w2, ((_cards pdf_doc ≫= anki_ops temp_dir) ++ [WriteToFile out]).
    split; [erewrite bind_returned; [|exact Hloop]; exact Hw|].
    rewrite Ht2, Hfull by eauto. rewrite <- app_assoc. split; [done|].
    rewrite renders_app, renders_anki. simpl. rewrite app_nil_r. done.
  - exists (Raised e), w1, (take n (_cards pdf_doc ≫= anki_ops temp_dir)).
    split; [by apply bind_raised|]. split; [done|]. split; [|done].
    rewrite <- (renders_anki temp_dir). apply renders_take_prefix.
Qed.

Lemma reads_mirrored_finally (block : Run unit) (dir : path) (w : World) :
  reads_mirrored pdf_doc block w →
  reads_mirrored pdf_doc (try_finally block (rmtree dir)) w.
Proof.
  intros (r & w1 & calls & Hb & Ht & Hp & Hr).
  destruct (try_rmtree_spec block dir w) as (r' & w1' & w' & Hb' & Htry & _ & Ht' & _).
  rewrite Hb in Hb'. injection Hb' as <- <-.
  exists r, w', (calls ++ [Rmtree dir]). split; [done|].
  rewrite Ht', Ht, <- app_assoc. split; [done|].
  rewrite renders_app. simpl. by rewrite app_nil_r.
Qed.

Lemma reads_mirrored_print (run : Run unit) (line : string) (w : World) :
  reads_mirrored pdf_doc run w → reads_mirrored pdf_doc (run;; print line) w.
Proof.
  intros (r & w1 & calls & Hb & Ht & Hp & Hr). destruct r as [[]|e].
  - eexists (Returned tt), _, calls. split; [by erewrite bind_returned|]. done.
  - exists (Raised e), w1, calls. split; [by apply bind_raised|]. done.
Qed.

Lemma export_anki_reads_mirrored (w : World) :
  reads_mirrored pdf_doc (export_anki env pdf_doc out deck_name) w.
Proof.
  destruct (fails env (length (trace w)) (Mkdir (path_parent out))) as [e|] eqn:Hm.
  { exists (Raised e), (log (Mkdir (path_parent out)) w), [Mkdir (path_parent out)].
    split; [|split; [done|split; [apply prefix_nil|done]]].
    unfold export_anki, mkdir. apply bind_raised. by apply call_raise. }
  destruct (fails env (S (length (trace w))) Mkdtemp) as [e|] eqn:Hd.
  { eexists (Raised e), _, [Mkdir (path_parent out); Mkdtemp].
    split; [|split; [|split; [apply prefix_nil|done]]].
    - unfold export_anki, mkdir, mkdtemp, randrange.
      erewrite bind_returned; [|by apply call_ok].
      erewrite bind_returned; [|done]. erewrite bind_returned; [|done].
      apply bind_raised, bind_raised, call_raise. by norm_world.
    - cbn [trace log set_dirs]. by rewrite <- app_assoc. }
  unfold reads_mirrored.
  destruct (export_anki_enter env pdf_doc out deck_name w Hm Hd) as (did & mid & ->).
  destruct (reads_mirrored_print _ (exported_line out) (anki_entered env out w)
              (reads_mirrored_finally _ (scratch env) _
                 (anki_try_reads_mirrored did (image_model mid) (scratch env) _)))
    as (r & w' & calls & Hrun & Ht & Hp & Hr).
  exists r, w', ([Mkdir (path_parent out); Mkdtemp] ++ calls).
  split; [done|]. rewrite Ht. cbn [trace anki_entered].
  rewrite <- app_assoc. done.
Qed.

(** The first failing call belongs to card [card]: the exception leaves
    the strategy after the scratch directory is removed, and nothing else
    is called. *)
Lemma export_anki_abort (w : World) pre card post j e :
  _cards pdf_doc = pre ++ card :: post →
  first_fault env (length (trace w))
    (Mkdir (path_parent out) :: Mkdtemp :: (pre ≫= anki_ops (scratch env))) = None →
  first_fault env (length (trace w) + S (S (length (pre ≫= anki_ops (scratch env)))))
    (anki_ops (scratch env) card) = Some (j, e) →
  ∃ w', export_anki env pdf_doc out deck_name w = (Raised e, w') ∧
        trace w' = trace w ++
          (Mkdir (path_parent out) :: Mkdtemp :: (pre ≫= anki_ops (scratch env))) ++
          take (S j) (anki_ops (scratch env) card) ++ [Rmtree (scratch env)] ∧
        stdout w' = stdout w ++ card_lines pre ∧
        absent (scratch env) w'.
Proof.
  intros Hcards [Hm [Hd Hpre]%first_fault_cons_None]%first_fault_cons_None Hc.
  destruct (export_anki_enter env pdf_doc out deck_name w Hm Hd) as (did & mid & ->).
  pose proof (_cards_pages_ok pdf_doc) as Hok. rewrite Hcards in Hok.
  destruct (anki_loop_abort env pdf_doc (scratch env) (image_model mid) pre post card
              ([], []) (anki_entered env out w) j e) as (w1 & Hloop & Ht1 & Hs1).
  { apply Forall_app in Hok as [Hok1 Hok2]. apply Forall_cons in Hok2 as [Hok2 _].
    apply Forall_app. split; [done|]. by constructor. }
  { cbn [trace anki_entered]. rewrite length_app. cbn [length].
    by rewrite Nat.add_comm. }
  { cbn [trace anki_entered]. rewrite length_app. cbn [length].
    rewrite <- Hc. f_equal. lia. }
  destruct (try_rmtree_spec
              (anki_try env pdf_doc out deck_name did (image_model mid) (scratch env))
              (scratch env) (anki_entered env out w))
    as (r & w1' & w' & Hb & Htry & Habs & Ht & Hs & _).
  assert (r = Raised e ∧ w1' = w1) as [-> ->].
  { revert Hb. unfold anki_try. rewrite <- Hcards in Hloop.
    erewrite bind_raised by done. by intros [= <- <-]. }
  exists w'. split; [by apply bind_raised|].
  rewrite Ht, Hs, Ht1, Hs1. cbn [trace stdout anki_entered].
  split; [|done]. rewrite <- !app_assoc. done.
Qed.

End AnkiRuns.

(** ** What the document strategies leave on disk *)

Section DocumentResults.

Context (env : Env) (pdf_doc : list Page) (out : path).

Lemma separate_names (cards : list Card) :
  (cards ≫= separate_writes pdf_doc out).*1 =
  (card ← cards; [front_path out card; back_path out card]).
Proof.
  induction cards as [|card cards IH]; [done|].
  by rewrite !bind_cons, fmap_app, IH, separate_keys.
Qed.

Lemma separate_writes_length (cards : list Card) :
  length (cards ≫= separate_writes pdf_doc out) = (2 * length cards)%nat.
Proof.
  induction cards as [|[[[[num q] a] col] row] cards IH]; [done|].
  rewrite bind_cons, length_app, IH. simpl. lia.
Qed.

Lemma merged_names (cards : list Card) :
  (cards ≫= merged_writes pdf_doc out).*1 = merged_path out <$> cards.
Proof.
  induction cards as [|card cards IH]; [done|].
  by rewrite !bind_cons, fmap_app, IH, merged_keys.
Qed.

Lemma merged_writes_length (cards : list Card) :
  length (cards ≫= merged_writes pdf_doc out) = length cards.
Proof.
  induction cards as [|[[[[num q] a] col] row] cards IH]; [done|].
  rewrite bind_cons, length_app, IH. done.
Qed.

Lemma separate_contents (fs : gmap path Content) (card : Card) :
  card ∈ _cards pdf_doc →
  write_all (_cards pdf_doc ≫= separate_writes pdf_doc out) fs !! front_path out card =
    Some (PdfBytes [front_page pdf_doc card]) ∧
  write_all (_cards pdf_doc ≫= separate_writes pdf_doc out) fs !! back_path out card =
    Some (PdfBytes [back_page pdf_doc card]).
Proof.
  intros Hc.
  assert (NoDup (_cards pdf_doc ≫= separate_writes pdf_doc out).*1) as Hnd.
  { apply keys_NoDup;
      [apply separate_keys_one|apply separate_keys_apart|
       apply _cards_numbers_NoDup|apply _cards_numbers_pos]. }
  split; (apply write_all_lookup; [done|]); apply list_elem_of_bind;
    exists card; (split; [|done]); destruct card as [[[[num q] a] col] row].
  - by left.
  - right. by left.
Qed.

Lemma merged_contents (fs : gmap path Content) (card : Card) :
  card ∈ _cards pdf_doc →
  write_all (_cards pdf_doc ≫= merged_writes pdf_doc out) fs !! merged_path out card =
    Some (PdfBytes [front_page pdf_doc card; back_page pdf_doc card]).
Proof.
  intros Hc. apply write_all_lookup.
  - apply keys_NoDup;
      [apply merged_keys_one|apply merged_keys_apart|
       apply _cards_numbers_NoDup|apply _cards_numbers_pos].
  - apply list_elem_of_bind. exists card. split; [|done].
    destruct card as [[[[num q] a] col] row]. by left.
Qed.

End DocumentResults.

(** ** The strategies: stated properties *)

(** C1: in each of the three export strategies, the cells asked of the
    engine are, card by card in enumeration order, the question cell
    (q_page, c, r) followed by the answer cell (a_page, 1 - c, r): the
    answer is read from the mirrored column of the same row.  This holds
    for every run; a run that stops early has asked for an initial part of
    these cells. *)
Theorem exports_read_mirrored_cells (env : Env) (pdf_doc : list Page)
    (out : path) (name : string) (w : World) :
  reads_mirrored pdf_doc (export_pdf_separate env pdf_doc out) w ∧
  reads_mirrored pdf_doc (export_pdf_merged env pdf_doc out) w ∧
  reads_mirrored pdf_doc (export_anki env pdf_doc out name) w.
Proof.
  split; [|split].
  - apply (document_reads_mirrored pdf_doc out _ (separate_ops out));
      [apply renders_separate|].
    apply (document_export_trace env pdf_doc out _ _ (separate_writes pdf_doc out)).
    + apply separate_body_ok.
    + apply separate_body_raise.
    + apply separate_keys_one.
    + apply separate_keys_apart.
  - apply (document_reads_mirrored pdf_doc out _ (merged_ops out));
      [apply renders_merged|].
    apply (document_export_trace env pdf_doc out _ _ (merged_writes pdf_doc out)).
    + apply merged_body_ok.
    + apply merged_body_raise.
    + apply merged_keys_one.
    + apply merged_keys_apart.
  - apply export_anki_reads_mirrored.
Qed.

(** C8: when no call fails, the separate-files strategy returns, the
    destination directory and its parents exist, and every card has its
    two files [NNN-Front.pdf] and [NNN-Back.pdf] there; into a directory
    that held no file these are all its files, 2*N of them for N cards, 16
    for 8 cards. *)
Theorem separate_export_file_pairs (env : Env) (pdf_doc : list Page)
    (out : path) (w : World) :
  first_fault env (length (trace w)) (separate_plan out (_cards pdf_doc)) = None →
  ∃ w', export_pdf_separate env pdf_doc out w = (Returned tt, w') ∧
    list_to_set (ancestors out) ⊆ fs_dirs w' ∧
    (∀ card, card ∈ _cards pdf_doc →
       fs_files w' !! path_join out (format_03d (card_number card) +:+ "-Front.pdf") =
         Some (PdfBytes [front_page pdf_doc card]) ∧
       fs_files w' !! path_join out (format_03d (card_number card) +:+ "-Back.pdf") =
         Some (PdfBytes [back_page pdf_doc card])) ∧
    (listing out (fs_files w) = ∅ →
       listing out (fs_files w') =
         list_to_set (card ← _cards pdf_doc; [front_path out card; back_path out card]) ∧
       size (listing out (fs_files w')) = (2 * length (_cards pdf_doc))%nat ∧
       (length (_cards pdf_doc) = 8%nat → size (listing out (fs_files w')) = 16%nat)).
Proof.
  intros Hf. eexists. split.
  { apply (document_export_ok env pdf_doc out _ (separate_ops out)
             (separate_writes pdf_doc out)); [apply separate_body_ok|exact Hf]. }
  cbn [fs_dirs fs_files]. split; [set_solver|]. split.
  - intros card Hc. by apply separate_contents.
  - intros Hfresh.
    destruct (document_export_listing pdf_doc out (separate_writes pdf_doc out)
                (separate_keys_one pdf_doc out) (separate_keys_apart pdf_doc out)
                (separate_keys_in_out pdf_doc out) w Hfresh) as [Hl Hs].
    rewrite Hs, Hl, separate_names, separate_writes_length.
    split; [done|]. split; [done|]. intros ->. done.
Qed.

Lemma separate_export_file_pairs_witness :
  first_fault quiet_env (length (trace empty_world))
    (separate_plan ["out"] (_cards two_pages)) = None ∧
  ∃ w', export_pdf_separate quiet_env two_pages ["out"] empty_world = (Returned tt, w') ∧
        size (listing ["out"] (fs_files w')) = 16%nat.
Proof.
  split; [reflexivity|].
  destruct (separate_export_file_pairs quiet_env two_pages ["out"] empty_world)
    as (w' & Hrun & _ & _ & Hl); [reflexivity|].
  exists w'. split; [exact Hrun|].
  apply Hl; reflexivity.
Defined.

(** C5: when no call fails, the merged strategy returns and every card
    has one file [NNN-Merged.pdf] holding exactly two pages, the question
    cell first and the mirrored answer cell second; into a directory that
    held no file these are all its files, one per card. *)
Theorem merged_export_question_then_answer (env : Env) (pdf_doc : list Page)
    (out : path) (w : World) :
  first_fault env (length (trace w)) (merged_plan out (_cards pdf_doc)) = None →
  ∃ w', export_pdf_merged env pdf_doc out w = (Returned tt, w') ∧
    (∀ card, card ∈ _cards pdf_doc →
       fs_files w' !! path_join out (format_03d (card_number card) +:+ "-Merged.pdf") =
         Some (PdfBytes
                 [cell pdf_doc (question_page card) (column card) (row_of card);
                  cell pdf_doc (answer_page card) (1 - column card) (row_of card)])) ∧
    (listing out (fs_files w) = ∅ →
       listing out (fs_files w') = list_to_set (merged_path out <$> _cards pdf_doc) ∧
       size (listing out (fs_files w')) = length (_cards pdf_doc)).
Proof.
  intros Hf. eexists. split.
  { apply (document_export_ok env pdf_doc out _ (merged_ops out)
             (merged_writes pdf_doc out)); [apply merged_body_ok|exact Hf]. }
  cbn [fs_dirs fs_files]. split.
  - intros card Hc. by apply merged_contents.
  - intros Hfresh.
    destruct (document_export_listing pdf_doc out (merged_writes pdf_doc out)
                (merged_keys_one pdf_doc out) (merged_keys_apart pdf_doc out)
                (merged_keys_in_out pdf_doc out) w Hfresh) as [Hl Hs].
    by rewrite Hs, Hl, merged_names, merged_writes_length.
Qed.

Lemma merged_export_question_then_answer_witness :
  first_fault quiet_env (length (trace empty_world))
    (merged_plan ["out"] (_cards two_pages)) = None ∧
  ∃ w', export_pdf_merged quiet_env two_pages ["out"] empty_world = (Returned tt, w') ∧
        fs_files w' !! ["out"; "002-Merged.pdf"] =
          Some (PdfBytes [cell two_pages 0 1 0; cell two_pages 1 0 0]) ∧
        size (listing ["out"] (fs_files w')) = 8%nat.
Proof.
  split; [reflexivity|].
  destruct (merged_export_question_then_answer quiet_env two_pages ["out"] empty_world)
    as (w' & Hrun & Hfiles & Hl); [reflexivity|].
  exists w'. split; [exact Hrun|]. split.
  - apply (Hfiles (2, 0, 1, 1, 0)). vm_compute. apply list_elem_of_In. simpl. tauto.
  - apply Hl. reflexivity.
Defined.

(** ** Size of the produced pages *)

Section PageSize.

Lemma _get_rect_width (page : Page) (col row : Z) :
  (rect_width (_get_rect page col row) == rect_width (page_rect page) / 2)%Q.
Proof.
  unfold rect_width at 1, _get_rect. cbn [x0 x1].
  pose proof (rect_width_nonneg (page_rect page)) as Hw.
  set (W := rect_width (page_rect page)) in *. clearbody W.
  rewrite inject_Z_plus. rewrite Q.max_r.
  - change (inject_Z 1) with 1%Q. ring.
  - change (inject_Z 1) with 1%Q. rewrite Qdiv2.
    assert ((inject_Z col + 1) * (W * (1 # 2)) - inject_Z col * (W * (1 # 2))
            == W * (1 # 2))%Q as -> by ring.
    lra.
Qed.

Lemma _get_rect_height (page : Page) (col row : Z) :
  (rect_height (_get_rect page col row) == rect_height (page_rect page) / 4)%Q.
Proof.
  unfold rect_height at 1, _get_rect. cbn [y0 y1].
  pose proof (rect_height_nonneg (page_rect page)) as Hh.
  set (H := rect_height (page_rect page)) in *. clearbody H.
  rewrite inject_Z_plus. rewrite Q.max_r.
  - change (inject_Z 1) with 1%Q. ring.
  - change (inject_Z 1) with 1%Q. rewrite Qdiv4.
    assert ((inject_Z row + 1) * (H * (1 # 4)) - inject_Z row * (H * (1 # 4))
            == H * (1 # 4))%Q as -> by ring.
    lra.
Qed.

Lemma cell_page_quarter_sized (page : Page) (page_num col row : Z) :
  quarter_sized page (cell_page page_num (_get_rect page col row)).
Proof.
  unfold quarter_sized, cell_page, show_pdf_page, new_page. cbn [out_width out_height].
  split; [apply _get_rect_width|apply _get_rect_height].
Qed.

Lemma cell_quarter_sized (pdf_doc : list Page) (page_num col row : Z) :
  quarter_sized (page_of pdf_doc page_num) (cell pdf_doc page_num col row).
Proof. apply cell_page_quarter_sized. Qed.

Lemma _extract_pdf_returned env (pdf_doc : list Page) page_num col row w data w' :
  _extract_pdf env pdf_doc page_num col row w = (Returned data, w') →
  ∃ src, pdf_doc !! Z.to_nat page_num = Some src ∧
         data = PdfBytes [cell_page page_num (_get_rect src col row)].
Proof.
  unfold _extract_pdf, getitem, call, mbind, Run_bind, mret, Run_ret, raise.
  destruct ((0 <=? page_num) && (page_num <? Z.of_nat (length pdf_doc))); [|done].
  destruct (pdf_doc !! Z.to_nat page_num) as [src|]; [|done].
  destruct (fails env _ _); [done|]. intros [= <- <-]. by exists src.
Qed.

End PageSize.

(** C10: every sub-document [_extract_pdf] returns is a single page whose
    width is half and whose height is a quarter of the source page's; in
    runs without failing calls these are the pages of every front and back
    file of the separate-files strategy and, in question-answer order, the
    two pages of every file of the merged strategy. *)
Theorem sub_documents_quarter_size (env : Env) (pdf_doc : list Page) (out : path) :
  (∀ page_num col row w data w',
     _extract_pdf env pdf_doc page_num col row w = (Returned data, w') →
     ∃ src pg, pdf_doc !! Z.to_nat page_num = Some src ∧
               data = PdfBytes [pg] ∧ quarter_sized src pg) ∧
  (∀ w, first_fault env (length (trace w)) (separate_plan out (_cards pdf_doc)) = None →
     ∃ w', export_pdf_separate env pdf_doc out w = (Returned tt, w') ∧
       ∀ card, card ∈ _cards pdf_doc →
         ∃ q_src a_src front back,
           pdf_doc !! Z.to_nat (question_page card) = Some q_src ∧
           pdf_doc !! Z.to_nat (answer_page card) = Some a_src ∧
           fs_files w' !! front_path out card = Some (PdfBytes [front]) ∧
           fs_files w' !! back_path out card = Some (PdfBytes [back]) ∧
           quarter_sized q_src front ∧ quarter_sized a_src back) ∧
  (∀ w, first_fault env (length (trace w)) (merged_plan out (_cards pdf_doc)) = None →
     ∃ w', export_pdf_merged env pdf_doc out w = (Returned tt, w') ∧
       ∀ card, card ∈ _cards pdf_doc →
         ∃ q_src a_src front back,
           pdf_doc !! Z.to_nat (question_page card) = Some q_src ∧
           pdf_doc !! Z.to_nat (answer_page card) = Some a_src ∧
           fs_files w' !! merged_path out card = Some (PdfBytes [front; back]) ∧
           quarter_sized q_src front ∧ quarter_sized a_src back).
Proof.
  split; [|split].
  - intros page_num col row w data w' Hrun.
    apply _extract_pdf_returned in Hrun as (src & Hsrc & ->).
    exists src. eexists. split; [done|]. split; [done|].
    apply cell_page_quarter_sized.
  - intros w Hf. eexists. split.
    { apply (document_export_ok env pdf_doc out _ (separate_ops out)
               (separate_writes pdf_doc out)); [apply separate_body_ok|exact Hf]. }
    intros card Hc. cbn [fs_files].
    pose proof (_cards_pages_ok pdf_doc) as Hok.
    eapply Forall_forall in Hok as [Hq Ha]; [|exact Hc].
    destruct (separate_contents pdf_doc out (fs_files w) card Hc) as [Hfront Hback].
    exists (page_of pdf_doc (question_page card)), (page_of pdf_doc (answer_page card)).
    do 2 eexists. split; [by apply page_of_lookup|]. split; [by apply page_of_lookup|].
    split; [exact Hfront|]. split; [exact Hback|].
    split; apply cell_quarter_sized.
  - intros w Hf. eexists. split.
    { apply (document_export_ok env pdf_doc out _ (merged_ops out)
               (merged_writes pdf_doc out)); [apply merged_body_ok|exact Hf]. }
    intros card Hc. cbn [fs_files].
    pose proof (_cards_pages_ok pdf_doc) as Hok.
    eapply Forall_forall in Hok as [Hq Ha]; [|exact Hc].
    exists (page_of pdf_doc (question_page card)), (page_of pdf_doc (answer_page card)).
    do 2 eexists. split; [by apply page_of_lookup|]. split; [by apply page_of_lookup|].
    split; [by apply merged_contents|].
    split; apply cell_quarter_sized.
Qed.

Lemma sub_documents_quarter_size_witness :
  _extract_pdf quiet_env two_pages 1 1 2 empty_world =
    (Returned (PdfBytes [cell two_pages 1 1 2]), log (ExtractPdf 1 1 2) empty_world) ∧
  ∃ src pg, two_pages !! Z.to_nat 1 = Some src ∧
            PdfBytes [cell two_pages 1 1 2] = PdfBytes [pg] ∧ quarter_sized src pg.
Proof.
  split; [reflexivity|].
  apply (proj1 (sub_documents_quarter_size quiet_env two_pages ["out"])
           1 1 2 empty_world _ (log (ExtractPdf 1 1 2) empty_world)).
  reflexivity.
Defined.

(** ** The scratch directory of the package strategy *)

(** C6: once the package strategy has made its scratch directory, it is
    gone again when the strategy is left, whether the strategy returns or
    an exception raised while extracting, staging or serialising leaves
    it: nothing is at or below the scratch path, and removing it was the
    last call made. *)
Theorem anki_scratch_removed (env : Env) (pdf_doc : list Page) (out : path)
    (name : string) (w : World) :
  fails env (length (trace w)) (Mkdir (path_parent out)) = None →
  fails env (S (length (trace w))) Mkdtemp = None →
  ∃ r w' calls,
    export_anki env pdf_doc out name w = (r, w') ∧
    absent (scratch env) w' ∧
    trace w' = trace w ++ [Mkdir (path_parent out); Mkdtemp] ++ calls
                 ++ [Rmtree (scratch env)].
Proof.
  intros Hm Hd.
  destruct (export_anki_enter env pdf_doc out name w Hm Hd) as (did & mid & ->).
  destruct (try_rmtree_spec
              (anki_try env pdf_doc out name did (image_model mid) (scratch env))
              (scratch env) (anki_entered env out w))
    as (r & w1 & w2 & Hb & Htry & Habs & Ht & _).
  destruct (anki_try_reads_mirrored env pdf_doc out name did (image_model mid)
              (scratch env) (anki_entered env out w))
    as (r' & w1' & calls & Hb' & Ht1 & _).
  rewrite Hb in Hb'. injection Hb' as <- <-.
  assert (trace w2 = trace w ++ [Mkdir (path_parent out); Mkdtemp] ++ calls ++
                       [Rmtree (scratch env)]) as Htrace.
  { rewrite Ht, Ht1. cbn [trace anki_entered]. by rewrite <- !app_assoc. }
  destruct r as [[]|e].
  - eexists (Returned tt), _, calls. split; [by erewrite bind_returned|].
    split; [|exact Htrace]. exact Habs.
  - exists (Raised e), w2, calls. split; [by apply bind_raised|]. done.
Qed.

Lemma anki_scratch_removed_witness :
  fails quiet_env (length (trace empty_world)) (Mkdir (path_parent ["deck.apkg"])) = None ∧
  fails quiet_env (S (length (trace empty_world))) Mkdtemp = None ∧
  ∃ r w' calls,
    export_anki quiet_env two_pages ["deck.apkg"] "Deck" empty_world = (r, w') ∧
    absent (scratch quiet_env) w' ∧
    trace w' = trace empty_world ++ [Mkdir (path_parent ["deck.apkg"]); Mkdtemp] ++ calls
                 ++ [Rmtree (scratch quiet_env)].
Proof.
  split; [reflexivity|]. split; [reflexivity|].
  apply (anki_scratch_removed quiet_env two_pages ["deck.apkg"] "Deck" empty_world);
    reflexivity.
Defined.

(** ** Failures *)

(** C7: let the first failing call of a run belong to card [card], the
    enumeration being [pre ++ card :: post].  In each strategy the
    exception of that call leaves the export; the calls made are those of
    the cards of [pre], then those of [card] up to and including the
    failing one (the package strategy then removes its scratch directory):
    the call is not repeated and no card of [post] is touched.  Progress
    lines exist for [pre] only.  In the separate-files strategy the files
    of the cards of [pre] are still on disk (likewise the merged files in
    the merged strategy). *)
Theorem card_error_aborts_export (env : Env) (pdf_doc : list Page) (out : path)
    (name : string) (w : World) (pre post : list Card) (card : Card)
    (j : nat) (e : Exn) :
  _cards pdf_doc = pre ++ card :: post →
  (first_fault env (length (trace w)) (separate_plan out pre) = None →
   first_fault env (length (trace w) + length (separate_plan out pre))
     (separate_ops out card) = Some (j, e) →
   ∃ w', export_pdf_separate env pdf_doc out w = (Raised e, w') ∧
         trace w' = trace w ++ separate_plan out pre ++ take (S j) (separate_ops out card) ∧
         stdout w' = stdout w ++ card_lines pre ∧
         ∀ c, c ∈ pre →
           fs_files w' !! front_path out c = Some (PdfBytes [front_page pdf_doc c]) ∧
           fs_files w' !! back_path out c = Some (PdfBytes [back_page pdf_doc c])) ∧
  (first_fault env (length (trace w)) (merged_plan out pre) = None →
   first_fault env (length (trace w) + length (merged_plan out pre))
     (merged_ops out card) = Some (j, e) →
   ∃ w', export_pdf_merged env pdf_doc out w = (Raised e, w') ∧
         trace w' = trace w ++ merged_plan out pre ++ take (S j) (merged_ops out card) ∧
         stdout w' = stdout w ++ card_lines pre ∧
         ∀ c, c ∈ pre →
           fs_files w' !! merged_path out c =
             Some (PdfBytes [front_page pdf_doc c; back_page pdf_doc c])) ∧
  (first_fault env (length (trace w))
     (Mkdir (path_parent out) :: Mkdtemp :: (pre ≫= anki_ops (scratch env))) = None →
   first_fault env
     (length (trace w) +
      length (Mkdir (path_parent out) :: Mkdtemp :: (pre ≫= anki_ops (scratch env))))
     (anki_ops (scratch env) card) = Some (j, e) →
   ∃ w', export_anki env pdf_doc out name w = (Raised e, w') ∧
         trace w' = trace w ++
           (Mkdir (path_parent out) :: Mkdtemp :: (pre ≫= anki_ops (scratch env))) ++
           take (S j) (anki_ops (scratch env) card) ++ [Rmtree (scratch env)] ∧
         stdout w' = stdout w ++ card_lines pre).
Proof.
  intros Hcards. split; [|split].
  - intros Hpre Hcard.
    destruct (document_export_abort env pdf_doc out _ (separate_ops out)
                (separate_writes pdf_doc out)
                (separate_body_ok env pdf_doc out) (separate_body_raise env pdf_doc out)
                (separate_keys_one pdf_doc out) (separate_keys_apart pdf_doc out)
                w pre card post j e Hcards Hpre Hcard) as (w' & Hrun & Ht & Hs & Hfs).
    exists w'. split; [exact Hrun|]. split; [exact Ht|]. split; [exact Hs|].
    intros c Hc. destruct c as [[[[n q] a] cl] r] eqn:Ec.
    split; apply (Hfs c); rewrite ?Ec; try done; [by left|right; by left].
  - intros Hpre Hcard.
    destruct (document_export_abort env pdf_doc out _ (merged_ops out)
                (merged_writes pdf_doc out)
                (merged_body_ok env pdf_doc out) (merged_body_raise env pdf_doc out)
                (merged_keys_one pdf_doc out) (merged_keys_apart pdf_doc out)
                w pre card post j e Hcards Hpre Hcard) as (w' & Hrun & Ht & Hs & Hfs).
    exists w'. split; [exact Hrun|]. split; [exact Ht|]. split; [exact Hs|].
    intros c Hc. destruct c as [[[[n q] a] cl] r] eqn:Ec.
    apply (Hfs c); rewrite ?Ec; try done. by left.
  - intros Hpre Hcard.
    destruct (export_anki_abort env pdf_doc out name w pre card post j e Hcards Hpre Hcard)
      as (w' & Hrun & Ht & Hs & _).
    by exists w'.
Qed.

Lemma card_error_aborts_export_witness :
  let pre : list Card := [(1, 0, 1, 0, 0); (2, 0, 1, 1, 0)] in
  let card : Card := (3, 0, 1, 0, 1) in
  let post : list Card :=
    [(4, 0, 1, 1, 1); (5, 0, 1, 0, 2); (6, 0, 1, 1, 2); (7, 0, 1, 0, 3); (8, 0, 1, 1, 3)] in
  _cards two_pages = pre ++ card :: post ∧
  first_fault (failing_at 10) (length (trace empty_world)) (separate_plan ["out"] pre) = None ∧
  first_fault (failing_at 10)
    (length (trace empty_world) + length (separate_plan ["out"] pre))
    (separate_ops ["out"] card) = Some (1%nat, External 1) ∧
  ∃ w', export_pdf_separate (failing_at 10) two_pages ["out"] empty_world =
          (Raised (External 1), w') ∧
        trace w' = trace empty_world ++ separate_plan ["out"] pre ++
                   take 2 (separate_ops ["out"] card) ∧
        stdout w' = stdout empty_world ++ card_lines pre.
Proof.
  intros pre card post.
  split; [reflexivity|]. split; [reflexivity|]. split; [reflexivity|].
  destruct (proj1 (card_error_aborts_export (failing_at 10) two_pages ["out"] "Deck"
                     empty_world pre post card 1 (External 1) eq_refl))
    as (w' & Hrun & Ht & Hs & _); [reflexivity..|].
  exists w'. split; [exact Hrun|]. split; [exact Ht|exact Hs].
Defined.

(** ** Sources without a page pair *)

Section ShortSource.

Context (env : Env) (pdf_doc : list Page).

Lemma _cards_short : (length pdf_doc < 2)%nat → _cards pdf_doc = [].
Proof.
  intros Hlen. rewrite _cards_closed_form.
  by rewrite Nat.div_small.
Qed.

Lemma anki_try_empty out name did model temp_dir (w : World) :
  _cards pdf_doc = [] →
  fails env (length (trace w)) (WriteToFile out) = None →
  anki_try env pdf_doc out name did model temp_dir w =
  (Returned tt,
   set_files (insert out (ApkgBytes (mkDeck did name []) [])) (log (WriteToFile out) w)).
Proof.
  intros Hcards Hf. unfold anki_try. rewrite Hcards. cbn [for_each_acc].
  erewrite bind_returned; [|done]. unfold write_to_file. by rewrite Hf.
Qed.

End ShortSource.

(** C9: a source of fewer than two pages yields no card.  When making the
    directory does not fail, the separate-files and the merged strategy
    return having made the directory, written no file and printed only
    the confirmation line.  When making the directories and writing the
    package do not fail, the package strategy returns having written a
    package with no note and no media file. *)
Theorem short_source_exports_nothing (env : Env) (pdf_doc : list Page)
    (out : path) (name : string) (w : World) :
  (length pdf_doc < 2)%nat →
  _cards pdf_doc = [] ∧
  (fails env (length (trace w)) (Mkdir out) = None →
   let done :=
     mkWorld (fs_dirs w ∪ list_to_set (ancestors out)) (fs_files w)
       (stdout w ++ [exported_line out]) (trace w ++ [Mkdir out]) (draws w) in
   export_pdf_separate env pdf_doc out w = (Returned tt, done) ∧
   export_pdf_merged env pdf_doc out w = (Returned tt, done)) ∧
  (fails env (length (trace w)) (Mkdir (path_parent out)) = None →
   fails env (S (length (trace w))) Mkdtemp = None →
   fails env (S (S (length (trace w)))) (WriteToFile out) = None →
   ¬ scratch env `prefix_of` out →
   ∃ w' deck,
     export_anki env pdf_doc out name w = (Returned tt, w') ∧
     fs_files w' !! out = Some (ApkgBytes deck []) ∧
     deck_notes deck = [] ∧
     stdout w' = stdout w ++ [exported_line out]).
Proof.
  intros Hlen. pose proof (_cards_short pdf_doc Hlen) as Hcards.
  split; [exact Hcards|]. split.
  - intros Hm done.
    assert (∀ ops, first_fault env (length (trace w))
                     (document_plan out ops (_cards pdf_doc)) = None) as Hf.
    { intros ops. rewrite Hcards. unfold document_plan. simpl. by rewrite Hm. }
    split.
    + rewrite export_pdf_separate_shape.
      rewrite (document_export_ok env pdf_doc out _ (separate_ops out)
                 (separate_writes pdf_doc out) (separate_body_ok env pdf_doc out) w (Hf _)).
      by rewrite Hcards.
    + rewrite export_pdf_merged_shape.
      rewrite (document_export_ok env pdf_doc out _ (merged_ops out)
                 (merged_writes pdf_doc out) (merged_body_ok env pdf_doc out) w (Hf _)).
      by rewrite Hcards.
  - intros Hm Hd Hw Hout.
    destruct (export_anki_enter env pdf_doc out name w Hm Hd) as (did & mid & ->).
    destruct (try_rmtree_spec
                (anki_try env pdf_doc out name did (image_model mid) (scratch env))
                (scratch env) (anki_entered env out w))
      as (r & w1 & w2 & Hb & Htry & _ & _ & Hs & Hfs).
    rewrite anki_try_empty in Hb; [|done|].
    2:{ cbn [trace anki_entered]. rewrite length_app. cbn [length].
        by rewrite Nat.add_comm. }
    injection Hb as <- <-.
    eexists _, (mkDeck did name []). split; [by erewrite bind_returned|].
    cbn [print fs_files stdout]. split; [|split; [done|]].
    + rewrite Hfs by done. cbn [fs_files set_files log]. apply lookup_insert_eq.
    + by rewrite Hs.
Qed.

Lemma short_source_exports_nothing_witness :
  (length [a4] < 2)%nat ∧
  _cards [a4] = [] ∧
  ∃ w' deck,
    export_anki quiet_env [a4] ["deck.apkg"] "Deck" empty_world = (Returned tt, w') ∧
    fs_files w' !! ["deck.apkg"] = Some (ApkgBytes deck []) ∧
    deck_notes deck = [] ∧
    stdout w' = stdout empty_world ++ [exported_line ["deck.apkg"]].
Proof.
  split; [simpl; lia|].
  destruct (short_source_exports_nothing quiet_env [a4] ["deck.apkg"] "Deck" empty_world)
    as (Hcards & _ & Hanki); [simpl; lia|].
  split; [exact Hcards|].
  apply Hanki; try reflexivity.
  intros Hp. apply prefix_cons_inv_1 in Hp. discriminate Hp.
Defined.

(** ** Runs by evaluation *)

(** a quiet package run over two pages: 8 notes, 16 media files, the
    scratch directory gone, the output directory left in place *)
Example package_run_two_pages :
  match export_anki quiet_env two_pages ["decks"; "deck.apkg"] "Deck" empty_world with
  | (Returned _, w') =>
      match fs_files w' !! ["decks"; "deck.apkg"] with
      | Some (ApkgBytes deck media) =>
          length (deck_notes deck) = 8%nat ∧ length media = 16%nat ∧
          media.*1 !! 1%nat = Some ["tmp"; "tmpk3x9"; "card_001_a.png"] ∧
          elements (fs_dirs w') = [["decks"]] ∧
          size (fs_files w') = 1%nat
      | _ => False
      end
  | _ => False
  end.
Proof. vm_compute. repeat split. Qed.

(** the separate-files run whose call at trace position 10 fails: the
    front file of card 3 cannot be written *)
Example separate_run_failing_at_10 :
  match export_pdf_separate (failing_at 10) two_pages ["out"] empty_world with
  | (Raised e, w') =>
      e = External 1 ∧
      last (trace w') = Some (WriteBytes ["out"; "003-Front.pdf"]) ∧
      length (trace w') = 11%nat ∧
      stdout w' = ["  Card 001"; "  Card 002"] ∧
      size (fs_files w') = 4%nat
  | _ => False
  end.
Proof. vm_compute. repeat split. Qed.

(** * Further properties of the code *)

(** ** The enumeration, card by card *)

Section EnumerationIndex.

Lemma index_decompose (i : nat) :
  (i = 8 * (i / 8) + 2 * ((i / 2) mod 4) + i mod 2 ∧ i mod 2 < 2 ∧ (i / 2) mod 4 < 4)%nat.
Proof.
  pose proof (Nat.div_mod_eq i 2). pose proof (Nat.div_mod_eq (i / 2) 4).
  pose proof (Nat.Div0.div_div i 2 4) as E. change (2 * 4)%nat with 8%nat in E.
  pose proof (Nat.mod_upper_bound i 2). pose proof (Nat.mod_upper_bound (i / 2) 4).
  lia.
Qed.

Lemma index_mod8 (i : nat) :
  ((i mod 8) mod 2 = i mod 2 ∧ (i mod 8) / 2 = (i / 2) mod 4)%nat.
Proof.
  destruct (index_decompose i) as (E & H2 & H4).
  pose proof (Nat.div_mod_eq i 8).
  assert (i mod 8 = 2 * ((i / 2) mod 4) + i mod 2)%nat as -> by lia.
  split.
  - symmetry. apply (Nat.mod_unique _ 2 ((i / 2) mod 4)); lia.
  - symmetry. apply (Nat.div_unique _ 2 _ (i mod 2)); lia.
Qed.

Lemma numbered_lookup n (l : list Slot) (i : nat) :
  numbered n l !! i =
  (λ s : Slot, let '(q, a, col, row) := s in (n + Z.of_nat i, q, a, col, row)) <$> l !! i.
Proof.
  revert n i; induction l as [|[[[q a] c] r] l IH]; intros n i; [done|].
  destruct i as [|i]; simpl.
  - by rewrite Z.add_0_r.
  - rewrite IH. destruct (l !! i) as [[[[q' a'] c'] r']|]; simpl; [|done].
    do 5 f_equal. lia.
Qed.

Lemma range_lookup (k i : nat) :
  range k !! i = if decide (i < k)%nat then Some (Z.of_nat i) else None.
Proof.
  unfold range. change (map Z.of_nat ?l) with (Z.of_nat <$> l).
  rewrite list_lookup_fmap. case_decide as Hi.
  - by rewrite lookup_seq_lt.
  - by rewrite lookup_seq_ge by lia.
Qed.

(** the slots of one page pair, by position *)
Lemma grid_order_one_lookup (k : Z) (m : nat) :
  (m < 8)%nat →
  grid_order [k] !! m = Some (2 * k, 2 * k + 1, Z.of_nat (m mod 2), Z.of_nat (m / 2)).
Proof.
  intros Hm. do 8 (destruct m as [|m]; [reflexivity|]). lia.
Qed.

Lemma grid_order_lookup (ks : list Z) (i : nat) :
  grid_order ks !! i = ks !! (i / 8)%nat ≫= λ k, grid_order [k] !! (i mod 8)%nat.
Proof.
  revert i; induction ks as [|k ks IH]; intros i.
  - simpl. by rewrite lookup_nil.
  - rewrite grid_order_cons.
    destruct (decide (i < 8)%nat) as [Hi|Hi].
    + rewrite lookup_app_l by (rewrite grid_order_length; simpl; lia).
      by rewrite Nat.div_small, Nat.mod_small.
    + rewrite lookup_app_r by (rewrite grid_order_length; simpl; lia).
      rewrite grid_order_length, IH. simpl length.
      pose proof (Nat.div_mod_eq (i - 8) 8) as Hdm.
      pose proof (Nat.mod_upper_bound (i - 8) 8) as Hub.
      assert (i / 8 = S ((i - 8) / 8))%nat as ->
        by (symmetry; apply (Nat.div_unique _ 8 _ ((i - 8) mod 8)); lia).
      assert (i mod 8 = (i - 8) mod 8)%nat as ->
        by (symmetry; apply (Nat.mod_unique _ 8 (S ((i - 8) / 8))); lia).
      done.
Qed.

End EnumerationIndex.

(** X1: every yielded card is well formed: its number lies between 1
    and the number of cards, its question page is an even page [2k], its
    answer page is the next page and exists in the document, and both
    the question cell and the mirrored answer cell are cells of the grid. *)
Theorem cards_well_formed (pdf_doc : list Page) (card : Card) :
  card ∈ _cards pdf_doc →
  1 <= card_number card <= Z.of_nat (length (_cards pdf_doc)) ∧
  (∃ k, 0 <= k ∧ question_page card = 2 * k) ∧
  answer_page card = question_page card + 1 ∧
  answer_page card < Z.of_nat (length pdf_doc) ∧
  valid_cell (column card) (row_of card) ∧
  valid_cell (1 - column card) (row_of card).
Proof.
  intros Hc. split.
  - assert (card_number card ∈ card_number <$> _cards pdf_doc) as Hn
      by (apply list_elem_of_fmap; eauto).
    rewrite _cards_closed_form in Hn |- *.
    change (card_number <$> ?l) with (map card_number l) in Hn.
    rewrite numbered_numbers in Hn. rewrite numbered_length.
    apply list_elem_of_fmap in Hn as (i & -> & Hi). apply elem_of_seq in Hi. lia.
  - pose proof (_cards_pages_ok pdf_doc) as Hok.
    eapply Forall_forall in Hok as [Hq Ha]; [|exact Hc].
    apply _cards_elem in Hc as (k & Hk & Eq & Ea & [Hcol Hrow]).
    split; [exists k; split; [lia|done]|].
    split; [lia|]. split; [lia|]. unfold valid_cell. lia.
Qed.

Lemma cards_well_formed_witness :
  (6, 0, 1, 1, 2) ∈ _cards two_pages ∧
  answer_page (6, 0, 1, 1, 2) = question_page (6, 0, 1, 1, 2) + 1 ∧
  valid_cell (1 - column (6, 0, 1, 1, 2)) (row_of (6, 0, 1, 1, 2)).
Proof.
  assert ((6, 0, 1, 1, 2) ∈ _cards two_pages) as Hin.
  { apply list_elem_of_lookup. exists 5%nat. reflexivity. }
  split; [exact Hin|].
  destruct (cards_well_formed two_pages (6, 0, 1, 1, 2) Hin) as (_ & _ & Ha & _ & _ & Hv).
  split; [exact Ha|exact Hv].
Defined.

Lemma _cards_at (pdf_doc : list Page) (i : nat) :
  _cards pdf_doc !! i =
  if decide (i < 8 * (length pdf_doc / 2))%nat
  then Some (Z.of_nat i + 1,
             2 * Z.of_nat (i / 8), 2 * Z.of_nat (i / 8) + 1,
             Z.of_nat (i mod 2), Z.of_nat ((i / 2) mod 4))
  else None.
Proof.
  rewrite _cards_closed_form, numbered_lookup, grid_order_lookup, range_lookup.
  destruct (index_mod8 i) as [E2 E4].
  case_decide as Hi; case_decide as Hi'.
  - change (Some (Z.of_nat (i / 8)) ≫= _)
      with (grid_order [Z.of_nat (i / 8)] !! (i mod 8)%nat).
    rewrite grid_order_one_lookup by (apply Nat.mod_upper_bound; lia).
    rewrite E2, E4. cbn [fmap option_fmap option_map]. do 5 f_equal. lia.
  - exfalso. apply Hi'.
    pose proof (Nat.div_mod_eq i 8). pose proof (Nat.mod_upper_bound i 8). lia.
  - exfalso. apply Hi. apply Nat.Div0.div_lt_upper_bound. lia.
  - done.
Qed.

(** X2: the card at position [i] of the enumeration, for any document:
    it has number [i + 1], comes from page pair [i / 8], row
    [(i / 2) mod 4] and column [i mod 2]; there is no card at position
    [8 * (pages / 2)] or beyond. *)
Theorem cards_lookup (pdf_doc : list Page) (i : nat) :
  _cards pdf_doc !! i =
  if decide (i < 8 * (length pdf_doc / 2))%nat
  then Some (Z.of_nat i + 1,
             2 * Z.of_nat (i / 8), 2 * Z.of_nat (i / 8) + 1,
             Z.of_nat (i mod 2), Z.of_nat ((i / 2) mod 4))
  else None.
Proof. apply _cards_at. Qed.

(** X4: pages appended to a document never change the cards already
    enumerated: the enumeration of the longer document starts with the
    enumeration of the shorter one. *)
Theorem cards_stable_under_append (pdf_doc more : list Page) :
  _cards pdf_doc `prefix_of` _cards (pdf_doc ++ more).
Proof.
  rewrite !_cards_closed_form, length_app.
  assert (length pdf_doc / 2 <= (length pdf_doc + length more) / 2)%nat as Hle
    by (apply Nat.Div0.div_le_mono; lia).
  set (k := (length pdf_doc / 2)%nat) in *.
  replace ((length pdf_doc + length more) / 2)%nat
    with (k + ((length pdf_doc + length more) / 2 - k))%nat by lia.
  unfold range. rewrite seq_app, map_app.
  change (map Z.of_nat ?l) with (Z.of_nat <$> l).
  unfold grid_order at 2. rewrite bind_app. fold (grid_order (Z.of_nat <$> seq 0 k)).
  rewrite numbered_app. by apply prefix_app_r.
Qed.

Section CellsOnce.

Context (pdf_doc : list Page).

Lemma _cards_slot_inj (c1 c2 : Card) :
  c1 ∈ _cards pdf_doc → c2 ∈ _cards pdf_doc → slot_of c1 = slot_of c2 → c1 = c2.
Proof.
  intros [i1 H1]%list_elem_of_lookup [i2 H2]%list_elem_of_lookup Hs.
  rewrite _cards_at in H1, H2.
  destruct (index_decompose i1) as (E1 & _). destruct (index_decompose i2) as (E2 & _).
  revert E1 E2 H1 H2.
  generalize (i1 / 8)%nat ((i1 / 2) mod 4)%nat (i1 mod 2)%nat
             (i2 / 8)%nat ((i2 / 2) mod 4)%nat (i2 mod 2)%nat.
  intros k1 r1 m1 k2 r2 m2 E1 E2 H1 H2.
  case_decide; [|done]. case_decide; [|done].
  injection H1 as <-. injection H2 as <-.
  unfold slot_of, question_page, answer_page, column, row_of in Hs.
  injection Hs as Hk Hk' Hc Hr.
  assert (i1 = i2) as -> by lia. repeat f_equal; lia.
Qed.

Lemma numbered_slot_elem n (l : list Slot) (s : Slot) :
  s ∈ l → ∃ card, card ∈ numbered n l ∧ slot_of card = s.
Proof.
  intros Hs. rewrite <- (numbered_slots n l) in Hs.
  change (map slot_of ?x) with (slot_of <$> x) in Hs.
  apply list_elem_of_fmap in Hs as (card & -> & Hc). eauto.
Qed.

Lemma mirrored_requests_elem (p c r : Z) :
  (p, c, r) ∈ mirrored_requests (_cards pdf_doc) ↔
  0 <= p < 2 * Z.of_nat (length pdf_doc / 2) ∧ valid_cell c r.
Proof.
  unfold mirrored_requests. rewrite list_elem_of_bind. split.
  - intros (card & Hcell & Hc).
    apply _cards_elem in Hc as (k & Hk & Eq & Ea & [Hcol Hrow]).
    apply elem_of_cons in Hcell as [E|Hcell];
      [|apply list_elem_of_singleton in Hcell as E];
      injection E as -> -> ->; unfold valid_cell; lia.
  - intros [Hp [Hc Hr]].
    assert (∃ k side, 0 <= k < Z.of_nat (length pdf_doc / 2) ∧ 0 <= side <= 1 ∧
                      p = 2 * k + side) as (k & side & Hk & Hside & ->).
    { exists (p / 2), (p mod 2). pose proof (Z.div_mod p 2).
      pose proof (Z.mod_pos_bound p 2). split; [|lia].
      split; [apply Z.div_pos; lia|apply Z.div_lt_upper_bound; lia]. }
    assert (side = 0 ∨ side = 1) as [-> | ->] by lia.
    + destruct (numbered_slot_elem 1 (grid_order (range (length pdf_doc / 2)))
                  (2 * k, 2 * k + 1, c, r)) as (card & Hcard & Hs).
      { apply elem_of_grid_order. exists k, c, r. split; [by apply elem_of_range|done]. }
      rewrite <- _cards_closed_form in Hcard. exists card. split; [|done].
      destruct card as [[[[n q] a] cl] rw]. injection Hs as -> -> -> ->.
      simpl. rewrite Z.add_0_r. by left.
    + destruct (numbered_slot_elem 1 (grid_order (range (length pdf_doc / 2)))
                  (2 * k, 2 * k + 1, 1 - c, r)) as (card & Hcard & Hs).
      { apply elem_of_grid_order. exists k, (1 - c), r.
        split; [by apply elem_of_range|]. split; [|done]. unfold valid_cell. lia. }
      rewrite <- _cards_closed_form in Hcard. exists card. split; [|done].
      destruct card as [[[[n q] a] cl] rw]. injection Hs as -> -> -> ->.
      simpl. replace (1 - (1 - c)) with c by lia. right. by left.
Qed.

Lemma mirrored_requests_NoDup : NoDup (mirrored_requests (_cards pdf_doc)).
Proof.
  unfold mirrored_requests. apply NoDup_bind.
  - intros c1 c2 cell H1 H2 Hc1 Hc2. apply _cards_slot_inj; [done..|].
    apply _cards_elem in H1 as (k1 & _ & Eq1 & Ea1 & _).
    apply _cards_elem in H2 as (k2 & _ & Eq2 & Ea2 & _).
    destruct c1 as [[[[n1 q1] a1] cl1] r1], c2 as [[[[n2 q2] a2] cl2] r2].
    unfold slot_of. simpl in *.
    apply elem_of_cons in Hc1 as [->|Hc1];
      [|apply list_elem_of_singleton in Hc1 as ->];
      (apply elem_of_cons in Hc2 as [E|Hc2];
        [|apply list_elem_of_singleton in Hc2 as E]);
      injection E as E1 E2 E3; subst; f_equal; try f_equal; try f_equal; lia.
  - intros [[[[n q] a] cl] r] Hc.
    apply _cards_elem in Hc as (k & _ & Eq & Ea & _). simpl in *.
    apply NoDup_cons. split; [|apply NoDup_singleton].
    intros E%list_elem_of_singleton. injection E as E _. lia.
  - eapply NoDup_fmap_1, _cards_numbers_NoDup.
Qed.

End CellsOnce.

(** X3: over a whole enumeration every cell of every paired page is asked
    for exactly once: the mirrored requests have no duplicate, and they are
    exactly the grid cells of the pages below [2 * (pages / 2)]. *)
Theorem every_cell_read_once (pdf_doc : list Page) :
  NoDup (mirrored_requests (_cards pdf_doc)) ∧
  ∀ p c r, (p, c, r) ∈ mirrored_requests (_cards pdf_doc) ↔
           0 <= p < 2 * Z.of_nat (length pdf_doc / 2) ∧ valid_cell c r.
Proof.
  split; [apply mirrored_requests_NoDup|apply mirrored_requests_elem].
Qed.

(** ** Formatted numbers *)

Section Format.

Lemma format_03d_nonneg (num : Z) :
  0 <= num →
  format_03d num =
  NilZero.string_of_uint
    (zfill (3 - Decimal.nb_digits (N.to_uint (Z.to_N num))) (N.to_uint (Z.to_N num))).
Proof. by destruct num. Qed.

Lemma nb_digits_zfill k d : Decimal.nb_digits (zfill k d) = (k + Decimal.nb_digits d)%nat.
Proof. induction k as [|k IH]; simpl; [done|]. by rewrite IH. Qed.

Lemma length_string_of_uint d :
  String.length (NilEmpty.string_of_uint d) = Decimal.nb_digits d.
Proof. induction d; simpl; congruence. Qed.

Lemma length_string_of_uint_nonnil d :
  d ≠ Decimal.Nil → String.length (NilZero.string_of_uint d) = Decimal.nb_digits d.
Proof.
  intros Hd. unfold NilZero.string_of_uint.
  destruct d; try done; apply length_string_of_uint.
Qed.

Lemma few_digits_below_1000 :
  forallb (λ i, Decimal.nb_digits (N.to_uint (N.of_nat i)) <=? 3)%nat (seq 0 1000) = true.
Proof. vm_compute. reflexivity. Qed.

Lemma ascending_lookup (names : list string) (i j : nat) (x y : string) :
  ascending names = true → (i < j)%nat →
  names !! i = Some x → names !! j = Some y → String.ltb x y = true.
Proof.
  revert i j; induction names as [|name rest IH]; intros i j Hasc Hij Hx Hy; [done|].
  simpl in Hasc. apply andb_true_iff in Hasc as [Hhead Hrest].
  destruct j as [|j]; [lia|]. destruct i as [|i]; simpl in *.
  - injection Hx as ->. rewrite forallb_forall in Hhead. apply Hhead.
    apply list_elem_of_In, list_elem_of_lookup. eauto.
  - apply (IH i j); [done|lia|done..].
Qed.

Lemma three_digit_names_ascending : ascending three_digit_names = true.
Proof. vm_compute. reflexivity. Qed.

End Format.

(** X5: the formatted number can be read back: for a number that is not
    negative, parsing the digits of [f"{num:03d}"] gives [num] again;
    so different card numbers never share a name. *)
Theorem format_03d_round_trip (num : Z) :
  0 <= num →
  ∃ d, NilZero.uint_of_string (format_03d num) = Some d ∧
       Z.of_N (N.of_uint d) = num.
Proof.
  intros Hn. rewrite format_03d_nonneg by done. eexists. split.
  - apply NilZero.usu, zfill_nonnil, N_to_uint_nonnil.
  - rewrite of_uint_zfill, DecimalN.Unsigned.of_to. lia.
Qed.

Lemma format_03d_round_trip_witness :
  0 <= 42 ∧
  ∃ d, NilZero.uint_of_string (format_03d 42) = Some d ∧ Z.of_N (N.of_uint d) = 42.
Proof. split; [lia|]. apply (format_03d_round_trip 42). lia. Defined.

(** X6: zero padding never cuts digits off: the formatted number has as
    many characters as the number has decimal digits, and at least three;
    for card numbers below 1000 it has exactly three. *)
Theorem format_03d_length (num : Z) :
  0 <= num →
  String.length (format_03d num) =
    Nat.max 3 (Decimal.nb_digits (N.to_uint (Z.to_N num))) ∧
  (num < 1000 → String.length (format_03d num) = 3%nat).
Proof.
  intros Hn. rewrite format_03d_nonneg by done.
  rewrite length_string_of_uint_nonnil by apply zfill_nonnil, N_to_uint_nonnil.
  rewrite nb_digits_zfill. split; [lia|]. intros Hlt.
  pose proof few_digits_below_1000 as Hall. rewrite forallb_forall in Hall.
  specialize (Hall (Z.to_nat num)). rewrite in_seq in Hall.
  replace (N.of_nat (Z.to_nat num)) with (Z.to_N num) in Hall by lia.
  apply Nat.leb_le in Hall; lia.
Qed.

Lemma format_03d_length_witness :
  0 <= 7 ∧ String.length (format_03d 7) = 3%nat.
Proof.
  split; [lia|]. apply (format_03d_length 7); lia.
Defined.

(** X7: up to card 999 the names sort in card order: for
    [0 <= n < m < 1000] the formatted [n] comes before the formatted [m]
    in dictionary order.  The bound is sharp: the formatted 1000 comes
    before the formatted 999. *)
Theorem format_03d_sorts_below_1000 (n m : Z) :
  0 <= n → n < m → m < 1000 →
  String.ltb (format_03d n) (format_03d m) = true ∧
  String.ltb (format_03d 1000) (format_03d 999) = true.
Proof.
  intros Hn Hnm Hm. split; [|reflexivity].
  apply (ascending_lookup three_digit_names (Z.to_nat n) (Z.to_nat m));
    [apply three_digit_names_ascending|lia|..];
    unfold three_digit_names; rewrite list_lookup_fmap, lookup_seq_lt by lia;
    simpl; do 2 f_equal; lia.
Qed.

Lemma format_03d_sorts_below_1000_witness :
  0 <= 9 ∧ 9 < 10 ∧ 10 < 1000 ∧ String.ltb (format_03d 9) (format_03d 10) = true.
Proof.
  split; [lia|]. split; [lia|]. split; [lia|].
  apply (format_03d_sorts_below_1000 9 10); lia.
Defined.

(** ** Cells and extracted pages *)

(** X10: the answer cell is the mirror image of the question cell: for a
    page of width [W] that is not negative, the rectangle of column
    [1 - col] is the rectangle of column [col] reflected in the vertical
    centre line of the page ([x] goes to [W - x]), in the same row. *)
Theorem mirrored_cell_is_reflection (page : Page) (col row : Z) :
  (0 <= page_width page)%Q →
  let W := page_width page in
  let question := _get_rect page col row in
  let answer := _get_rect page (1 - col) row in
  (x0 answer == W - x1 question)%Q ∧ (x1 answer == W - x0 question)%Q ∧
  (y0 answer == y0 question)%Q ∧ (y1 answer == y1 question)%Q.
Proof.
  intros HW W question answer. subst W question answer.
  unfold _get_rect. cbn [x0 x1 y0 y1].
  assert (rect_width (page_rect page) == page_width page)%Q as ->.
  { unfold rect_width, page_rect; simpl. rewrite Q.max_r; lra. }
  replace (1 - col + 1) with (2 - col) by lia.
  unfold Z.sub. rewrite !inject_Z_plus, !inject_Z_opp.
  change (inject_Z 1) with 1%Q. change (inject_Z 2) with 2%Q.
  unfold Qdiv. repeat split; try reflexivity; field.
Qed.

Lemma mirrored_cell_is_reflection_witness :
  (0 <= page_width a4)%Q ∧
  (x0 (_get_rect a4 1 2) == page_width a4 - x1 (_get_rect a4 0 2))%Q.
Proof.
  split; [unfold a4; simpl; lra|].
  apply (mirrored_cell_is_reflection a4 0 2). unfold a4; simpl; lra.
Defined.

(** X9: what [_extract_pdf] returns shows the cell at its own size: the
    one page of the returned document shows exactly the cell rectangle of
    the requested source page, laid over the whole new page, and target
    and clip have the same width and the same height; the only call
    recorded is the one engine call. *)
Theorem extracted_page_not_scaled (env : Env) (pdf_doc : list Page)
    (page_num col row : Z) (w w' : World) (data : Content) :
  _extract_pdf env pdf_doc page_num col row w = (Returned data, w') →
  ∃ src pg target clip,
    pdf_doc !! Z.to_nat page_num = Some src ∧
    data = PdfBytes [pg] ∧
    out_shown pg = [(target, page_num, clip)] ∧
    clip = _get_rect src col row ∧ target = out_rect pg ∧
    (rect_width target == rect_width clip)%Q ∧
    (rect_height target == rect_height clip)%Q ∧
    w' = log (ExtractPdf page_num col row) w.
Proof.
  unfold _extract_pdf, getitem, call, mbind, Run_bind, mret, Run_ret, raise.
  destruct ((0 <=? page_num) && (page_num <? Z.of_nat (length pdf_doc))); [|done].
  destruct (pdf_doc !! Z.to_nat page_num) as [src|]; [|done].
  destruct (fails env _ _); [done|]. intros [= <- <-].
  exists src. do 3 eexists. split; [done|]. split; [done|].
  unfold cell_page, show_pdf_page, new_page. cbn [out_shown out_width out_height app].
  split; [done|]. split; [done|]. split; [done|].
  unfold out_rect. cbn [out_width out_height].
  pose proof (rect_width_nonneg (_get_rect src col row)) as Hw.
  pose proof (rect_height_nonneg (_get_rect src col row)) as Hh.
  revert Hw Hh.
  generalize (rect_width (_get_rect src col row)) (rect_height (_get_rect src col row)).
  intros cw ch Hw Hh. unfold rect_width, rect_height. cbn [x0 x1 y0 y1].
  split; [etransitivity; [apply Q.max_r; lra|lra]|].
  split; [etransitivity; [apply Q.max_r; lra|lra]|done].
Qed.

Lemma extracted_page_not_scaled_witness :
  _extract_pdf quiet_env two_pages 1 1 2 empty_world =
    (Returned (PdfBytes [cell two_pages 1 1 2]), log (ExtractPdf 1 1 2) empty_world) ∧
  ∃ src pg target clip,
    two_pages !! Z.to_nat 1 = Some src ∧
    PdfBytes [cell two_pages 1 1 2] = PdfBytes [pg] ∧
    out_shown pg = [(target, 1, clip)] ∧
    clip = _get_rect src 1 2 ∧ target = out_rect pg ∧
    (rect_width target == rect_width clip)%Q ∧
    (rect_height target == rect_height clip)%Q ∧
    log (ExtractPdf 1 1 2) empty_world = log (ExtractPdf 1 1 2) empty_world.
Proof.
  split; [reflexivity|].
  apply (extracted_page_not_scaled quiet_env two_pages 1 1 2 empty_world). reflexivity.
Defined.

(** ** Document strategies: every run *)

Section DocumentOutcome.

Context (env : Env) (pdf_doc : list Page) (out : path).
Context (body : Card → Run unit).
Context (ops : Card → list Op) (writes : Card → list (path * Content)).

Hypothesis body_ok : ∀ card w,
  pages_ok pdf_doc card →
  first_fault env (length (trace w)) (ops card) = None →
  body card w =
  (Returned tt,
   mkWorld (fs_dirs w) (write_all (writes card) (fs_files w))
     (stdout w ++ [card_line (card_number card)])
     (trace w ++ ops card) (draws w)).

Hypothesis body_raise : ∀ card w j e,
  pages_ok pdf_doc card →
  first_fault env (length (trace w)) (ops card) = Some (j, e) →
  ∃ w', body card w = (Raised e, w') ∧
        trace w' = trace w ++ take (S j) (ops card) ∧
        stdout w' = stdout w ∧
        ∀ p, p ∉ (writes card).*1 → fs_files w' !! p = fs_files w !! p.

Hypothesis keys_one : ∀ card, NoDup (writes card).*1.

Hypothesis keys_apart : ∀ c c' p,
  0 <= card_number c → 0 <= card_number c' → card_number c ≠ card_number c' →
  p ∈ (writes c).*1 → p ∈ (writes c').*1 → False.

(** The run returns exactly when no call of its plan fails; otherwise it
    raises the exception of the first failing call and stops there. *)
Lemma document_export_outcome (w : World) :
  match first_fault env (length (trace w)) (document_plan out ops (_cards pdf_doc)) with
  | None =>
      ∃ w', document_run env pdf_doc out body w = (Returned tt, w') ∧
            trace w' = trace w ++ document_plan out ops (_cards pdf_doc)
  | Some (i, e) =>
      ∃ w', document_run env pdf_doc out body w = (Raised e, w') ∧
            trace w' = trace w ++ take (S i) (document_plan out ops (_cards pdf_doc))
  end.
Proof.
  destruct (first_fault env (length (trace w))
              (document_plan out ops (_cards pdf_doc))) as [[i e]|] eqn:Hf.
  - revert Hf. unfold document_plan. cbn [first_fault].
    destruct (fails env (length (trace w)) (Mkdir out)) as [e0|] eqn:Hm.
    + intros [= <- <-]. exists (log (Mkdir out) w). split; [|done].
      unfold document_run, mkdir. apply bind_raised. by apply call_raise.
    + destruct (first_fault env _ _) as [[i' e']|] eqn:Hl; [|done].
      intros [= <- <-].
      apply first_fault_item in Hl as (pre & card & post & j & Hcards & Hpre & Hcard & ->).
      destruct (document_export_abort env pdf_doc out body ops writes
                  body_ok body_raise keys_one keys_apart w pre card post j e' Hcards)
        as (w' & Hrun & Ht & _).
      { by apply first_fault_cons_None. }
      { by rewrite Nat.add_succ_r, <- Nat.add_succ_l. }
      exists w'. split; [done|].
      rewrite Ht, Hcards, bind_app, bind_cons. cbn [take]. do 2 f_equal.
      replace (S (length (pre ≫= ops) + j)) with (length (pre ≫= ops) + S j)%nat by lia.
      rewrite take_app_add', take_app_le; [done| |done].
      pose proof (first_fault_lt _ _ _ _ _ Hcard). lia.
  - eexists. split; [by apply document_export_ok|done].
Qed.

End DocumentOutcome.

(** X11: the separate-files and the merged strategy fail only when a call
    they make fails: either none of the planned calls fails and the
    strategy returns having made all of them, or the strategy raises the
    exception of the first failing call, having made the calls up to that
    one and none after it.  The program adds no failure of its own (no
    page index is ever out of range). *)
Theorem document_exports_fail_only_with_calls (env : Env) (pdf_doc : list Page)
    (out : path) (w : World) :
  match first_fault env (length (trace w)) (separate_plan out (_cards pdf_doc)) with
  | None =>
      ∃ w', export_pdf_separate env pdf_doc out w = (Returned tt, w') ∧
            trace w' = trace w ++ separate_plan out (_cards pdf_doc)
  | Some (i, e) =>
      ∃ w', export_pdf_separate env pdf_doc out w = (Raised e, w') ∧
            trace w' = trace w ++ take (S i) (separate_plan out (_cards pdf_doc))
  end ∧
  match first_fault env (length (trace w)) (merged_plan out (_cards pdf_doc)) with
  | None =>
      ∃ w', export_pdf_merged env pdf_doc out w = (Returned tt, w') ∧
            trace w' = trace w ++ merged_plan out (_cards pdf_doc)
  | Some (i, e) =>
      ∃ w', export_pdf_merged env pdf_doc out w = (Raised e, w') ∧
            trace w' = trace w ++ take (S i) (merged_plan out (_cards pdf_doc))
  end.
Proof.
  split.
  - apply (document_export_outcome env pdf_doc out _ (separate_ops out)
             (separate_writes pdf_doc out));
      [apply separate_body_ok|apply separate_body_raise|
       apply separate_keys_one|apply separate_keys_apart].
  - apply (document_export_outcome env pdf_doc out _ (merged_ops out)
             (merged_writes pdf_doc out));
      [apply merged_body_ok|apply merged_body_raise|
       apply merged_keys_one|apply merged_keys_apart].
Qed.

(** ** What a run leaves alone *)

Section Frames.

Context (env : Env) (pdf_doc : list Page).

Lemma wrote_only_in_refl (dir : path) (w : World) : wrote_only_in dir w w.
Proof. by split. Qed.

Lemma wrote_only_in_trans (dir : path) (w1 w2 w3 : World) :
  wrote_only_in dir w1 w2 → wrote_only_in dir w2 w3 → wrote_only_in dir w1 w3.
Proof.
  intros [Hd1 Hf1] [Hd2 Hf2]. split; [congruence|].
  intros p Hp. by rewrite Hf2, Hf1.
Qed.

Lemma for_each_wrote_only_in {A} (dir : path) (xs : list A) (body : A → Run unit) :
  (∀ x w r w', body x w = (r, w') → wrote_only_in dir w w') →
  ∀ w r w', for_each xs body w = (r, w') → wrote_only_in dir w w'.
Proof.
  intros Hbody. induction xs as [|x xs IH]; intros w r w' Hrun.
  - injection Hrun as <- <-. apply wrote_only_in_refl.
  - cbn [for_each] in Hrun. unfold mbind, Run_bind in Hrun.
    destruct (body x w) as [[[]|e] w1] eqn:Hb.
    + eapply wrote_only_in_trans; [by eapply Hbody|by eapply IH].
    + injection Hrun as <- <-. by eapply Hbody.
Qed.

Lemma for_each_acc_wrote_only_in {A S} (P : World → World → Prop) (xs : list A)
    (body : S → A → Run S) :
  (∀ w, P w w) → (∀ w1 w2 w3, P w1 w2 → P w2 w3 → P w1 w3) →
  (∀ s x w r w', body s x w = (r, w') → P w w') →
  ∀ s w r w', for_each_acc xs body s w = (r, w') → P w w'.
Proof.
  intros Hrefl Htrans Hbody. induction xs as [|x xs IH]; intros s w r w' Hrun.
  - injection Hrun as <- <-. apply Hrefl.
  - cbn [for_each_acc] in Hrun. unfold mbind, Run_bind in Hrun.
    destruct (body s x w) as [[s1|e] w1] eqn:Hb.
    + eapply Htrans; [by eapply Hbody|by eapply IH].
    + injection Hrun as <- <-. by eapply Hbody.
Qed.

Lemma _extract_pdf_world page_num col row (w : World) r w' :
  _extract_pdf env pdf_doc page_num col row w = (r, w') →
  fs_dirs w' = fs_dirs w ∧ fs_files w' = fs_files w.
Proof.
  unfold _extract_pdf, getitem, call, mbind, Run_bind, mret, Run_ret, raise.
  intros H. repeat case_match; by simplify_eq.
Qed.

Lemma _extract_image_world page_num col row dpi (w : World) r w' :
  _extract_image env pdf_doc page_num col row dpi w = (r, w') →
  fs_dirs w' = fs_dirs w ∧ fs_files w' = fs_files w.
Proof.
  unfold _extract_image, getitem, call, mbind, Run_bind, mret, Run_ret, raise.
  intros H. repeat case_match; by simplify_eq.
Qed.

Lemma write_bytes_world (p : path) (data : Content) (w : World) r w' :
  write_bytes env p data w = (r, w') →
  fs_dirs w' = fs_dirs w ∧ ∀ p', p' ≠ p → fs_files w' !! p' = fs_files w !! p'.
Proof.
  unfold write_bytes, call. intros H. case_match; simplify_eq; [done|].
  split; [done|]. intros p' Hp. cbn [fs_files set_files log].
  by rewrite lookup_insert_ne.
Qed.

Lemma separate_body_frame (out : path) (card : Card) (w : World) r w' :
  separate_body env pdf_doc out card w = (r, w') → wrote_only_in out w w'.
Proof.
  destruct card as [[[[num q] a] col] row]. unfold separate_body, print, mbind, Run_bind.
  intros H.
  destruct (_extract_pdf _ _ q _ _ w) as [[front|e1] w1] eqn:H1;
    apply _extract_pdf_world in H1 as [Hd1 Hf1]; [|simplify_eq; by split; [|intros; congruence]].
  destruct (write_bytes _ _ front w1) as [[[]|e2] w2] eqn:H2;
    apply write_bytes_world in H2 as [Hd2 Hf2].
  2:{ simplify_eq. split; [congruence|]. intros p Hp. rewrite Hf2, Hf1; [done|].
      intros ->. apply Hp. by eexists. }
  destruct (_extract_pdf _ _ a _ _ w2) as [[back|e3] w3] eqn:H3;
    apply _extract_pdf_world in H3 as [Hd3 Hf3].
  2:{ simplify_eq. split; [congruence|]. intros p Hp. rewrite Hf3, Hf2, Hf1; [done|].
      intros ->. apply Hp. by eexists. }
  destruct (write_bytes _ _ back w3) as [[[]|e4] w4] eqn:H4;
    apply write_bytes_world in H4 as [Hd4 Hf4];
    simplify_eq; (split; [cbn [fs_dirs]; congruence|]); intros p Hp;
    cbn [fs_files]; (rewrite Hf4, Hf3, Hf2, Hf1; [done|..]);
    intros ->; apply Hp; by eexists.
Qed.

Lemma open_stream_world (data : Content) (w : World) r w' :
  open_stream env data w = (r, w') →
  fs_dirs w' = fs_dirs w ∧ fs_files w' = fs_files w.
Proof.
  unfold open_stream, call, mbind, Run_bind, mret, Run_ret, raise.
  intros H. repeat case_match; by simplify_eq.
Qed.

Lemma insert_pdf_world (doc src : list OutPage) (w : World) r w' :
  insert_pdf env doc src w = (r, w') →
  fs_dirs w' = fs_dirs w ∧ fs_files w' = fs_files w.
Proof.
  unfold insert_pdf, call, mbind, Run_bind, mret, Run_ret.
  intros H. repeat case_match; by simplify_eq.
Qed.

Lemma save_world (doc : list OutPage) (p : path) (w : World) r w' :
  save env doc p w = (r, w') →
  fs_dirs w' = fs_dirs w ∧ ∀ p', p' ≠ p → fs_files w' !! p' = fs_files w !! p'.
Proof.
  unfold save, call. intros H. case_match; simplify_eq; [done|].
  split; [done|]. intros p' Hp. cbn [fs_files set_files log].
  by rewrite lookup_insert_ne.
Qed.

Lemma merged_body_frame (out : path) (card : Card) (w : World) r w' :
  merged_body env pdf_doc out card w = (r, w') → wrote_only_in out w w'.
Proof.
  destruct card as [[[[num q] a] col] row]. unfold merged_body, print, mbind, Run_bind.
  intros H.
  destruct (_extract_pdf _ _ q _ _ w) as [[d1|e1] w1] eqn:H1;
    apply _extract_pdf_world in H1 as [Hd1 Hf1]; [|simplify_eq; split; [congruence|intros; congruence]].
  destruct (open_stream _ d1 w1) as [[front|e2] w2] eqn:H2;
    apply open_stream_world in H2 as [Hd2 Hf2];
    [|simplify_eq; split; [congruence|intros; congruence]].
  destruct (insert_pdf _ _ front w2) as [[m1|e3] w3] eqn:H3;
    apply insert_pdf_world in H3 as [Hd3 Hf3];
    [|simplify_eq; split; [congruence|intros; congruence]].
  destruct (_extract_pdf _ _ a _ _ w3) as [[d2|e4] w4] eqn:H4;
    apply _extract_pdf_world in H4 as [Hd4 Hf4];
    [|simplify_eq; split; [congruence|intros; congruence]].
  destruct (open_stream _ d2 w4) as [[back|e5] w5] eqn:H5;
    apply open_stream_world in H5 as [Hd5 Hf5];
    [|simplify_eq; split; [congruence|intros; congruence]].
  destruct (insert_pdf _ _ back w5) as [[m2|e6] w6] eqn:H6;
    apply insert_pdf_world in H6 as [Hd6 Hf6];
    [|simplify_eq; split; [congruence|intros; congruence]].
  destruct (save _ m2 _ w6) as [[[]|e7] w7] eqn:H7;
    apply save_world in H7 as [Hd7 Hf7];
    simplify_eq; (split; [cbn [fs_dirs]; congruence|]); intros p Hp;
    cbn [fs_files]; (rewrite Hf7; [congruence|]);
    intros ->; apply Hp; by eexists.
Qed.

(** a document run creates directories on the way to [out] only and
    writes only directly inside [out] *)
Lemma document_run_frame (out : path) (body : Card → Run unit) :
  (∀ card w r w', body card w = (r, w') → wrote_only_in out w w') →
  ∀ w r w', document_run env pdf_doc out body w = (r, w') →
    (∀ p, ¬ directly_in out p → fs_files w' !! p = fs_files w !! p) ∧
    fs_dirs w ⊆ fs_dirs w' ∧ fs_dirs w' ⊆ fs_dirs w ∪ list_to_set (ancestors out).
Proof.
  intros Hbody w r w'. unfold document_run, mkdir, call, print, mbind, Run_bind.
  destruct (fails env (length (trace w)) (Mkdir out)).
  { intros [= <- <-]. split; [done|]. cbn [fs_dirs log]. set_solver. }
  destruct (for_each _ _ _) as [[[]|e] w1] eqn:Hloop;
    apply (for_each_wrote_only_in out _ _ Hbody) in Hloop as [Hd Hf];
    intros [= <- <-]; cbn [fs_dirs fs_files set_dirs log] in *;
    (split; [exact Hf|]); rewrite Hd; set_solver.
Qed.

End Frames.

(** X12: no run of the separate-files or of the merged strategy, whether
    it returns or fails, touches a file that is not directly inside the
    output directory, and the only directories it can add are the output
    directory and its parents; no directory is removed. *)
Theorem document_exports_write_only_in_out (env : Env) (pdf_doc : list Page)
    (out : path) (w w' : World) (r : Outcome unit) :
  export_pdf_separate env pdf_doc out w = (r, w') ∨
  export_pdf_merged env pdf_doc out w = (r, w') →
  (∀ p, ¬ directly_in out p → fs_files w' !! p = fs_files w !! p) ∧
  fs_dirs w ⊆ fs_dirs w' ∧ fs_dirs w' ⊆ fs_dirs w ∪ list_to_set (ancestors out).
Proof.
  intros [H|H].
  - apply (document_run_frame env pdf_doc out (separate_body env pdf_doc out)
             (separate_body_frame env pdf_doc out) w r w' H).
  - apply (document_run_frame env pdf_doc out (merged_body env pdf_doc out)
             (merged_body_frame env pdf_doc out) w r w' H).
Qed.

Lemma document_exports_write_only_in_out_witness :
  ∃ r w',
    export_pdf_separate (failing_at 10) two_pages ["out"] empty_world = (r, w') ∧
    (∀ p, ¬ directly_in ["out"] p → fs_files w' !! p = fs_files empty_world !! p) ∧
    fs_dirs empty_world ⊆ fs_dirs w' ∧
    fs_dirs w' ⊆ fs_dirs empty_world ∪ list_to_set (ancestors ["out"]).
Proof.
  destruct (export_pdf_separate (failing_at 10) two_pages ["out"] empty_world)
    as [r w'] eqn:Hrun.
  exists r, w'. split; [reflexivity|].
  apply (document_exports_write_only_in_out (failing_at 10) two_pages ["out"]
           empty_world w' r).
  left. exact Hrun.
Defined.

(** ** Running a document strategy again, and comparing the two *)

Section Rerun.



End Rerun.



(** X18: the two document strategies agree: when no call fails, the
    merged file of every card holds the pages of the card's front file
    followed by the pages of its back file, as the separate-files strategy
    writes them. *)
Theorem merged_is_front_then_back (env : Env) (pdf_doc : list Page)
    (out_s out_m : path) (ws wm : World) :
  first_fault env (length (trace ws)) (separate_plan out_s (_cards pdf_doc)) = None →
  first_fault env (length (trace wm)) (merged_plan out_m (_cards pdf_doc)) = None →
  ∃ ws' wm',
    export_pdf_separate env pdf_doc out_s ws = (Returned tt, ws') ∧
    export_pdf_merged env pdf_doc out_m wm = (Returned tt, wm') ∧
    ∀ card, card ∈ _cards pdf_doc →
      ∃ front back,
        fs_files ws' !! front_path out_s card = Some (PdfBytes front) ∧
        fs_files ws' !! back_path out_s card = Some (PdfBytes back) ∧
        fs_files wm' !! merged_path out_m card = Some (PdfBytes (front ++ back)).
Proof.
  intros Hs Hm. do 2 eexists.
  split.
  { apply (document_export_ok env pdf_doc out_s _ (separate_ops out_s)
             (separate_writes pdf_doc out_s)); [apply separate_body_ok|exact Hs]. }
  split.
  { apply (document_export_ok env pdf_doc out_m _ (merged_ops out_m)
             (merged_writes pdf_doc out_m)); [apply merged_body_ok|exact Hm]. }
  intros card Hc. cbn [fs_files].
  destruct (separate_contents pdf_doc out_s (fs_files ws) card Hc) as [Hfront Hback].
  exists [front_page pdf_doc card], [back_page pdf_doc card].
  split; [exact Hfront|]. split; [exact Hback|].
  by apply merged_contents.
Qed.

Lemma merged_is_front_then_back_witness :
  first_fault quiet_env (length (trace empty_world))
    (separate_plan ["a"] (_cards two_pages)) = None ∧
  first_fault quiet_env (length (trace empty_world))
    (merged_plan ["b"] (_cards two_pages)) = None ∧
  ∃ ws' wm',
    export_pdf_separate quiet_env two_pages ["a"] empty_world = (Returned tt, ws') ∧
    export_pdf_merged quiet_env two_pages ["b"] empty_world = (Returned tt, wm').
Proof.
  split; [reflexivity|]. split; [reflexivity|].
  destruct (merged_is_front_then_back quiet_env two_pages ["a"] ["b"]
              empty_world empty_world) as (ws' & wm' & Hs & Hm & _); [reflexivity..|].
  exists ws', wm'. split; [exact Hs|exact Hm].
Defined.

(** ** The package strategy: what is packed, what is left alone *)

Section AnkiResult.

Context (env : Env) (pdf_doc : list Page).

Lemma anki_body_result temp_dir model media notes (card : Card) (w : World) :
  pages_ok pdf_doc card →
  first_fault env (length (trace w)) (anki_ops temp_dir card) = None →
  anki_body env pdf_doc temp_dir model (media, notes) card w =
  (Returned (media ++ (anki_writes pdf_doc temp_dir card).*1,
             notes ++ [anki_note model card]),
   mkWorld (fs_dirs w) (write_all (anki_writes pdf_doc temp_dir card) (fs_files w))
     (stdout w ++ [card_line (card_number card)])
     (trace w ++ anki_ops temp_dir card) (draws w)).
Proof.
  destruct card as [[[[num q] a] col] row]. intros [Hq Ha]. simpl in Hq, Ha.
  unfold anki_body, _extract_image, write_bytes, call, print.
  unfold mbind, Run_bind, mret, Run_ret. cbn [first_fault anki_ops].
  rewrite getitem_ok by done.
  next_call env; [done|]. next_call env; [done|].
  rewrite getitem_ok by done.
  next_call env; [done|]. next_call env; [done|].
  intros _. rewrite <- !app_assoc. reflexivity.
Qed.

Lemma anki_loop_result temp_dir model (cards : list Card) media notes (w : World) :
  Forall (pages_ok pdf_doc) cards →
  first_fault env (length (trace w)) (cards ≫= anki_ops temp_dir) = None →
  for_each_acc cards (anki_body env pdf_doc temp_dir model) (media, notes) w =
  (Returned (media ++ (cards ≫= anki_writes pdf_doc temp_dir).*1,
             notes ++ (anki_note model <$> cards)),
   mkWorld (fs_dirs w) (write_all (cards ≫= anki_writes pdf_doc temp_dir) (fs_files w))
     (stdout w ++ card_lines cards)
     (trace w ++ (cards ≫= anki_ops temp_dir)) (draws w)).
Proof.
  revert media notes w; induction cards as [|card cards IH]; intros media notes w Hok Hf.
  - unfold card_lines. simpl. rewrite !app_nil_r. by destruct w.
  - apply Forall_cons in Hok as [Hc Hok].
    rewrite bind_cons in Hf. apply first_fault_app_None in Hf as [Hf1 Hf2].
    cbn [for_each_acc]. erewrite bind_returned; [|by apply anki_body_result].
    rewrite IH; [|done|cbn [trace]; by rewrite length_app].
    cbn [fs_dirs fs_files stdout trace draws]. unfold card_lines.
    rewrite !bind_cons, write_all_app, !fmap_cons, fmap_app, <- !app_assoc. done.
Qed.

Lemma read_media_written (kvs : list (path * Content)) (w : World) :
  (∀ p data, (p, data) ∈ kvs → fs_files w !! p = Some data) →
  read_media kvs.*1 w = Some kvs.
Proof.
  unfold read_media. induction kvs as [|[p data] kvs IH]; intros Hall; [done|].
  cbn [fmap list_fmap mapM fst]. rewrite (Hall p data) by left.
  cbn. rewrite IH; [done|]. intros p' data' Hin. apply Hall. by right.
Qed.

(** the names of the staged files *)
Lemma q_file_inj (a b : Z) : 0 <= a → 0 <= b → q_file a = q_file b → a = b.
Proof.
  intros Ha Hb H. unfold q_file in H. apply (inj (String.app "card_")) in H.
  apply append_inj_l in H. by apply format_03d_inj.
Qed.

Lemma a_file_inj (a b : Z) : 0 <= a → 0 <= b → a_file a = a_file b → a = b.
Proof.
  intros Ha Hb H. unfold a_file in H. apply (inj (String.app "card_")) in H.
  apply append_inj_l in H. by apply format_03d_inj.
Qed.

Lemma q_file_a_file_ne (a b : Z) : q_file a ≠ a_file b.
Proof.
  unfold q_file, a_file. intros H. apply (inj (String.app "card_")) in H.
  by apply append_suffix_ne in H.
Qed.

Lemma anki_keys temp_dir (card : Card) :
  (anki_writes pdf_doc temp_dir card).*1 =
  [path_join temp_dir (q_file (card_number card));
   path_join temp_dir (a_file (card_number card))].
Proof. by destruct card as [[[[num q] a] col] row]. Qed.

Lemma anki_keys_one temp_dir (card : Card) : NoDup (anki_writes pdf_doc temp_dir card).*1.
Proof.
  rewrite anki_keys. apply NoDup_cons. split; [|apply NoDup_singleton].
  intros H%list_elem_of_singleton. apply path_join_inj in H.
  by apply q_file_a_file_ne in H.
Qed.

Lemma anki_keys_apart temp_dir (c c' : Card) (p : path) :
  0 <= card_number c → 0 <= card_number c' → card_number c ≠ card_number c' →
  p ∈ (anki_writes pdf_doc temp_dir c).*1 →
  p ∈ (anki_writes pdf_doc temp_dir c').*1 → False.
Proof.
  intros Hc Hc' Hne. rewrite !anki_keys.
  intros [->|[->|[]%elem_of_nil]%elem_of_cons]%elem_of_cons
         [H|[H|[]%elem_of_nil]%elem_of_cons]%elem_of_cons;
    apply path_join_inj in H.
  - apply q_file_inj in H; done.
  - by apply q_file_a_file_ne in H.
  - symmetry in H. by apply q_file_a_file_ne in H.
  - apply a_file_inj in H; done.
Qed.

Lemma export_anki_enter_ids out name (w : World) :
  fails env (length (trace w)) (Mkdir (path_parent out)) = None →
  fails env (S (length (trace w))) Mkdtemp = None →
  export_anki env pdf_doc out name w =
  (try_finally
     (anki_try env pdf_doc out name
        (2 ^ 30 + draw env (draws w) mod (2 ^ 31 - 2 ^ 30))
        (image_model (2 ^ 30 + draw env (S (draws w)) mod (2 ^ 31 - 2 ^ 30)))
        (scratch env))
     (rmtree (scratch env));;
   print (exported_line out)) (anki_entered env out w).
Proof.
  intros Hm Ht. unfold export_anki, mkdir, mkdtemp, randrange.
  erewrite bind_returned; [|by apply call_ok].
  erewrite bind_returned; [|done]. erewrite bind_returned; [|done].
  erewrite bind_returned.
  2:{ erewrite bind_returned; [done|]. apply call_ok. by norm_world. }
  unfold anki_entered, set_dirs, log. cbn [trace fs_dirs fs_files stdout draws].
  by rewrite <- app_assoc.
Qed.

End AnkiResult.

(** X13: a package run in which no call fails returns with one package
    at the output path: the deck holds one note per card, in card order,
    whose two fields show the card's question image and answer image; the
    media are the two images of every card, the answer image taken from the
    mirrored column; both identifiers lie in [2^30, 2^31); the scratch
    directory is gone and one line per card plus the confirmation line was
    printed.  (The output path is assumed not to lie in the fresh scratch
    directory.) *)
Theorem anki_export_package (env : Env) (pdf_doc : list Page) (out : path)
    (name : string) (w : World) :
  first_fault env (length (trace w))
    (Mkdir (path_parent out) :: Mkdtemp ::
     (_cards pdf_doc ≫= anki_ops (scratch env)) ++ [WriteToFile out]) = None →
  ¬ scratch env `prefix_of` out →
  ∃ w' did mid,
    export_anki env pdf_doc out name w = (Returned tt, w') ∧
    2 ^ 30 <= did < 2 ^ 31 ∧ 2 ^ 30 <= mid < 2 ^ 31 ∧
    fs_files w' !! out =
      Some (ApkgBytes
              (mkDeck did name (anki_note (image_model mid) <$> _cards pdf_doc))
              (_cards pdf_doc ≫= anki_writes pdf_doc (scratch env))) ∧
    absent (scratch env) w' ∧
    stdout w' = stdout w ++ card_lines (_cards pdf_doc) ++ [exported_line out].
Proof.
  intros [Hm [Hd Hrest]%first_fault_cons_None]%first_fault_cons_None Hout.
  apply first_fault_app_None in Hrest as [Hloop Hwrite].
  apply first_fault_cons_None in Hwrite as [Hwrite _].
  rewrite (export_anki_enter_ids env pdf_doc out name w Hm Hd).
  set (did := 2 ^ 30 + draw env (draws w) mod (2 ^ 31 - 2 ^ 30)).
  set (mid := 2 ^ 30 + draw env (S (draws w)) mod (2 ^ 31 - 2 ^ 30)).
  set (kvs := _cards pdf_doc ≫= anki_writes pdf_doc (scratch env)).
  destruct (try_rmtree_spec
              (anki_try env pdf_doc out name did (image_model mid) (scratch env))
              (scratch env) (anki_entered env out w))
    as (r & w1 & w2 & Hb & Htry & Habs & _ & Hs & Hfs).
  assert (NoDup kvs.*1) as Hnd.
  { apply keys_NoDup;
      [apply anki_keys_one|apply anki_keys_apart|
       apply _cards_numbers_NoDup|apply _cards_numbers_pos]. }
  assert (r = Returned tt ∧
          fs_files w1 !! out =
            Some (ApkgBytes (mkDeck did name (anki_note (image_model mid) <$> _cards pdf_doc))
                    kvs) ∧
          stdout w1 = stdout w ++ card_lines (_cards pdf_doc)) as (-> & Hpkg & Hs1).
  { revert Hb. unfold anki_try.
    erewrite bind_returned.
    2:{ apply anki_loop_result; [apply _cards_pages_ok|].
        cbn [trace anki_entered]. rewrite length_app. cbn [length].
        by rewrite Nat.add_comm. }
    unfold write_to_file. cbn [trace anki_entered app fmap].
    replace (length ((trace w ++ [Mkdir (path_parent out); Mkdtemp]) ++
                     _cards pdf_doc ≫= anki_ops (scratch env)))
      with (S (S (length (trace w))) + length (_cards pdf_doc ≫= anki_ops (scratch env)))%nat
      by (rewrite !length_app; cbn [length]; lia).
    rewrite Hwrite. rewrite read_media_written.
    - intros [= <- <-]. cbn [fs_files stdout set_files log].
      split; [done|]. split; [apply lookup_insert_eq|done].
    - intros p data Hin. cbn [fs_files]. by apply write_all_lookup. }
  exists (mkWorld (fs_dirs w2) (fs_files w2) (stdout w2 ++ [exported_line out])
            (trace w2) (draws w2)), did, mid.
  split; [by erewrite bind_returned|].
  assert (0 <= draw env (draws w) mod (2 ^ 31 - 2 ^ 30) < 2 ^ 31 - 2 ^ 30)
    by (apply Z.mod_pos_bound; lia).
  assert (0 <= draw env (S (draws w)) mod (2 ^ 31 - 2 ^ 30) < 2 ^ 31 - 2 ^ 30)
    by (apply Z.mod_pos_bound; lia).
  split; [subst did; lia|]. split; [subst mid; lia|].
  cbn [fs_files stdout]. split; [by rewrite Hfs|].
  split; [exact Habs|]. by rewrite Hs, Hs1, <- app_assoc.
Qed.

Lemma anki_export_package_witness :
  first_fault quiet_env (length (trace empty_world))
    (Mkdir (path_parent ["decks"; "deck.apkg"]) :: Mkdtemp ::
     (_cards two_pages ≫= anki_ops (scratch quiet_env)) ++
     [WriteToFile ["decks"; "deck.apkg"]]) = None ∧
  ¬ scratch quiet_env `prefix_of` ["decks"; "deck.apkg"] ∧
  ∃ w', export_anki quiet_env two_pages ["decks"; "deck.apkg"] "Deck" empty_world =
          (Returned tt, w') ∧
        absent (scratch quiet_env) w'.
Proof.
  assert (¬ scratch quiet_env `prefix_of` ["decks"; "deck.apkg"]) as Hout.
  { intros Hp. apply prefix_cons_inv_1 in Hp. discriminate Hp. }
  split; [reflexivity|]. split; [exact Hout|].
  destruct (anki_export_package quiet_env two_pages ["decks"; "deck.apkg"] "Deck"
              empty_world) as (w' & did & mid & Hrun & _ & _ & _ & Habs & _);
    [reflexivity|exact Hout|].
  exists w'. split; [exact Hrun|exact Habs].
Defined.

Section AnkiFrames.

Context (env : Env) (pdf_doc : list Page).

Lemma directly_in_prefix (dir p : path) : directly_in dir p → dir `prefix_of` p.
Proof. intros [name ->]. by apply prefix_app_r. Qed.

Lemma anki_body_frame temp_dir model st (card : Card) (w : World) r w' :
  anki_body env pdf_doc temp_dir model st card w = (r, w') →
  wrote_only_in temp_dir w w'.
Proof.
  destruct card as [[[[num q] a] col] row], st as [media notes].
  unfold anki_body, print, mbind, Run_bind, mret, Run_ret. intros H.
  destruct (_extract_image _ _ q _ _ _ w) as [[q_png|e1] w1] eqn:H1;
    apply _extract_image_world in H1 as [Hd1 Hf1];
    [|simplify_eq; split; [congruence|intros; congruence]].
  destruct (write_bytes _ _ q_png w1) as [[[]|e2] w2] eqn:H2;
    apply write_bytes_world in H2 as [Hd2 Hf2].
  2:{ simplify_eq. split; [congruence|]. intros p Hp. rewrite Hf2, Hf1; [done|].
      intros ->. apply Hp. by eexists. }
  destruct (_extract_image _ _ a _ _ _ w2) as [[a_png|e3] w3] eqn:H3;
    apply _extract_image_world in H3 as [Hd3 Hf3].
  2:{ simplify_eq. split; [congruence|]. intros p Hp. rewrite Hf3, Hf2, Hf1; [done|].
      intros ->. apply Hp. by eexists. }
  destruct (write_bytes _ _ a_png w3) as [[[]|e4] w4] eqn:H4;
    apply write_bytes_world in H4 as [Hd4 Hf4];
    simplify_eq; (split; [cbn [fs_dirs]; congruence|]); intros p Hp;
    cbn [fs_files]; (rewrite Hf4, Hf3, Hf2, Hf1; [done|..]);
    intros ->; apply Hp; by eexists.
Qed.

Lemma anki_loop_frame temp_dir model (cards : list Card) st (w : World) r w' :
  for_each_acc cards (anki_body env pdf_doc temp_dir model) st w = (r, w') →
  wrote_only_in temp_dir w w'.
Proof.
  apply (for_each_acc_wrote_only_in (wrote_only_in temp_dir)).
  - apply wrote_only_in_refl.
  - apply wrote_only_in_trans.
  - intros s x w0 r0 w0'. apply anki_body_frame.
Qed.

Lemma write_to_file_world deck media (p : path) (w : World) r w' :
  write_to_file env deck media p w = (r, w') →
  fs_dirs w' = fs_dirs w ∧ ∀ p', p' ≠ p → fs_files w' !! p' = fs_files w !! p'.
Proof.
  unfold write_to_file. intros H. repeat case_match; simplify_eq; try done.
  split; [done|]. intros p' Hp. cbn [fs_files set_files log].
  by rewrite lookup_insert_ne.
Qed.

Lemma anki_try_frame out name did model temp_dir (w : World) r w' :
  anki_try env pdf_doc out name did model temp_dir w = (r, w') →
  ∀ p, ¬ temp_dir `prefix_of` p → p ≠ out → fs_files w' !! p = fs_files w !! p.
Proof.
  unfold anki_try, mbind, Run_bind. intros H p Hp Hout.
  destruct (for_each_acc _ _ _ w) as [[[media notes]|e] w1] eqn:Hloop;
    apply anki_loop_frame in Hloop as [_ Hf1].
  - apply write_to_file_world in H as [_ Hf2].
    rewrite Hf2, Hf1; [done| |done]. intros Hin. by apply Hp, directly_in_prefix.
  - injection H as <- <-. apply Hf1. intros Hin. by apply Hp, directly_in_prefix.
Qed.

Lemma export_anki_frame out name (w : World) r w' :
  export_anki env pdf_doc out name w = (r, w') →
  ∀ p, ¬ scratch env `prefix_of` p → p ≠ out → fs_files w' !! p = fs_files w !! p.
Proof.
  intros Hrun p Hp Hout.
  destruct (fails env (length (trace w)) (Mkdir (path_parent out))) as [e|] eqn:Hm.
  { revert Hrun. unfold export_anki, mkdir.
    erewrite bind_raised by (by apply call_raise). by intros [= <- <-]. }
  destruct (fails env (S (length (trace w))) Mkdtemp) as [e|] eqn:Hd.
  { revert Hrun. unfold export_anki, mkdir, mkdtemp, randrange.
    erewrite bind_returned; [|by apply call_ok].
    erewrite bind_returned; [|done]. erewrite bind_returned; [|done].
    erewrite bind_raised.
    2:{ apply bind_raised, call_raise. by norm_world. }
    by intros [= <- <-]. }
  destruct (export_anki_enter env pdf_doc out name w Hm Hd) as (did & mid & Henter).
  rewrite Henter in Hrun.
  destruct (try_rmtree_spec
              (anki_try env pdf_doc out name did (image_model mid) (scratch env))
              (scratch env) (anki_entered env out w))
    as (r1 & w1 & w2 & Hb & Htry & _ & _ & _ & Hfs).
  apply anki_try_frame with (p := p) in Hb; [|done..].
  revert Hrun. unfold mbind, Run_bind. rewrite Htry.
  destruct r1 as [[]|e]; intros [= <- <-]; cbn [print fs_files];
    by rewrite Hfs, Hb.
Qed.

Lemma export_anki_early_failure out name (w : World) i e :
  first_fault env (length (trace w))
    (Mkdir (path_parent out) :: Mkdtemp :: (_cards pdf_doc ≫= anki_ops (scratch env))) =
    Some (i, e) →
  ∃ w', export_anki env pdf_doc out name w = (Raised e, w') ∧
        ∀ p, ¬ scratch env `prefix_of` p → fs_files w' !! p = fs_files w !! p.
Proof.
  cbn [first_fault].
  destruct (fails env (length (trace w)) (Mkdir (path_parent out))) as [e0|] eqn:Hm.
  { intros [= <- <-]. eexists. split.
    - unfold export_anki, mkdir. apply bind_raised. by apply call_raise.
    - done. }
  destruct (fails env (S (length (trace w))) Mkdtemp) as [e0|] eqn:Hd.
  { intros [= <- <-]. eexists. split.
    - unfold export_anki, mkdir, mkdtemp, randrange.
      erewrite bind_returned; [|by apply call_ok].
      erewrite bind_returned; [|done]. erewrite bind_returned; [|done].
      apply bind_raised, bind_raised, call_raise. by norm_world.
    - done. }
  destruct (first_fault env _ _) as [[i' e']|] eqn:Hl; [|done].
  intros [= <- <-].
  apply first_fault_item in Hl as (pre & card & post & j & Hcards & Hpre & Hcard & ->).
  destruct (export_anki_enter env pdf_doc out name w Hm Hd) as (did & mid & ->).
  pose proof (_cards_pages_ok pdf_doc) as Hok. rewrite Hcards in Hok.
  destruct (anki_loop_abort env pdf_doc (scratch env) (image_model mid) pre post card
              ([], []) (anki_entered env out w) j e') as (w1 & Hloop & _).
  { apply Forall_app in Hok as [Hok1 Hok2]. apply Forall_cons in Hok2 as [Hok2 _].
    apply Forall_app. split; [done|]. by constructor. }
  { cbn [trace anki_entered]. rewrite length_app. cbn [length].
    by rewrite Nat.add_comm. }
  { cbn [trace anki_entered]. rewrite length_app. cbn [length].
    rewrite <- Hcard. f_equal. lia. }
  pose proof (anki_loop_frame _ _ _ _ _ _ _ Hloop) as [_ Hf1].
  destruct (try_rmtree_spec
              (anki_try env pdf_doc out name did (image_model mid) (scratch env))
              (scratch env) (anki_entered env out w))
    as (r & w1' & w' & Hb & Htry & _ & _ & _ & Hfs).
  assert (r = Raised e' ∧ w1' = w1) as [-> ->].
  { revert Hb. unfold anki_try. rewrite <- Hcards in Hloop.
    erewrite bind_raised by done. by intros [= <- <-]. }
  exists w'. split; [by apply bind_raised|].
  intros p Hp. rewrite Hfs, Hf1; [done| |done].
  intros Hin. by apply Hp, directly_in_prefix.
Qed.

End AnkiFrames.

(** X14: the package strategy works in its scratch directory only.  No
    run, returning or failing, changes a file outside the scratch
    directory other than the output file; and when the first failing call
    comes before the package is written (making a directory, or a call of
    some card), the run raises that call's exception and every file
    outside the scratch directory, the output path included, is as it
    was. *)
Theorem anki_leaves_other_files (env : Env) (pdf_doc : list Page) (out : path)
    (name : string) (w : World) :
  (∀ r w', export_anki env pdf_doc out name w = (r, w') →
     ∀ p, ¬ scratch env `prefix_of` p → p ≠ out →
          fs_files w' !! p = fs_files w !! p) ∧
  (∀ i e,
     first_fault env (length (trace w))
       (Mkdir (path_parent out) :: Mkdtemp :: (_cards pdf_doc ≫= anki_ops (scratch env))) =
       Some (i, e) →
     ∃ w', export_anki env pdf_doc out name w = (Raised e, w') ∧
           ∀ p, ¬ scratch env `prefix_of` p → fs_files w' !! p = fs_files w !! p).
Proof.
  split.
  - intros r w'. apply export_anki_frame.
  - intros i e. apply export_anki_early_failure.
Qed.

Lemma anki_leaves_other_files_witness :
  first_fault (failing_at 7) (length (trace empty_world))
    (Mkdir (path_parent ["deck.apkg"]) :: Mkdtemp ::
     (_cards two_pages ≫= anki_ops (scratch (failing_at 7)))) =
    Some (7%nat, External 1) ∧
  ∃ w', export_anki (failing_at 7) two_pages ["deck.apkg"] "Deck" empty_world =
          (Raised (External 1), w') ∧
        ∀ p, ¬ scratch (failing_at 7) `prefix_of` p →
             fs_files w' !! p = fs_files empty_world !! p.
Proof.
  split; [reflexivity|].
  apply (proj2 (anki_leaves_other_files (failing_at 7) two_pages ["deck.apkg"] "Deck"
                  empty_world) 7%nat (External 1)).
  reflexivity.
Defined.

(** X16: the warning of the constructor tells the truth.  When the
    constructor returns a document, the cells the exports read are the
    eight cells of each of the first [used] pages: all pages when nothing
    is printed on standard error, and all pages but the last one when the
    warning is printed, which happens for an odd page count and names that
    count. *)
Theorem init_warning_names_unused_page (fitz_open : path → Outcome (list Page))
    (pdf_path : path) (w : World) (pdf_doc : list Page) (err : list string) :
  __init__ fitz_open pdf_path w = (Returned pdf_doc, err) →
  ∃ used : Z,
    (∀ p c r, (p, c, r) ∈ mirrored_requests (_cards pdf_doc) ↔
              (0 <= p < used ∧ valid_cell c r)) ∧
    ((err = [] ∧ used = Z.of_nat (length pdf_doc)) ∨
     (err = [odd_warning (length pdf_doc)] ∧ used = Z.of_nat (length pdf_doc) - 1 ∧
      0 <= used)).
Proof.
  unfold __init__. destruct (path_exists w pdf_path); [|done].
  destruct (fitz_open pdf_path) as [doc|e]; [|done].
  destruct (Nat.eqb_spec (length doc mod 2) 0) as [E|E];
    intros [= -> <-]; exists (2 * Z.of_nat (length pdf_doc / 2));
    (split; [intros p c r; apply mirrored_requests_elem|]);
    pose proof (Nat.div_mod_eq (length pdf_doc) 2) as Hdm;
    pose proof (Nat.mod_upper_bound (length pdf_doc) 2) as Hub;
    revert Hdm Hub E; generalize (length pdf_doc / 2)%nat (length pdf_doc mod 2)%nat;
    intros half rest Hdm Hub E; [left|right]; (split; [done|lia]).
Qed.

Lemma init_warning_names_unused_page_witness :
  ∃ used : Z,
    (∀ p c r, (p, c, r) ∈ mirrored_requests (_cards [a4; a4; a4]) ↔
              (0 <= p < used ∧ valid_cell c r)) ∧
    (([odd_warning 3] = [] ∧ used = Z.of_nat (length [a4; a4; a4])) ∨
     ([odd_warning 3] = [odd_warning (length [a4; a4; a4])] ∧
      used = Z.of_nat (length [a4; a4; a4]) - 1 ∧ 0 <= used)).
Proof.
  apply (init_warning_names_unused_page (λ _, Returned [a4; a4; a4]) ["cards.pdf"]
           world_with_source).
  reflexivity.
Defined.
